(** * TreeProjection: LIDAR point clouds to 2-D density images

    A shallow embedding of [TreeProjection.py] and the properties its
    specification states about it.

    The script computes on IEEE 754 binary64 numbers.  Every numeric function
    of the script is written once, over the interface [Float]; the interface
    has two instances:

    - [binary64], the numbers the script runs on (Rocq's executable
      specification of IEEE 754 arithmetic, [SpecFloat]), used wherever
      rounding, infinities or NaN decide the behaviour;
    - [R], exact real arithmetic, used for the statements of geometry, where
      the specification speaks of the mathematical values.  Every statement
      over [R] keeps its divisors positive: a division by zero, which gives
      an infinity or NaN in the script, is studied on [binary64] only.

    The library calls are modelled from the behaviour numpy (1.15 and
    later), matplotlib and Python document: [np.argmax] returns the first
    maximum, [np.arange] computes its length as a rounded-up quotient and
    its entries as [start + i * delta], [np.histogram2d] closes the last bin
    on the right and drops what lies outside the edges, [int] truncates,
    [imshow] refuses an aspect that is not positive, [savefig] replaces a
    file of the same name.  What numpy leaves to compiled libraries, the
    transcendental functions and the rounding of the inner product of
    [np.dot], is an interface of its own, [Libm]; what [pathlib] makes of
    a path is a collaborator of the script, as the file system is. *)

From Stdlib Require Import String.
From Stdlib Require Import List ZArith Bool Reals Lra Lia.
From Stdlib Require Import Floats.SpecFloat.
Import ListNotations.

Set Implicit Arguments.

(** ** Python exceptions and results *)

(** The classes of exception the script and the library calls it makes can
    raise; all of them derive from [Exception].  The exceptions that derive
    from [BaseException] alone are outside this type; the wrapper of a task
    is written a second time over them, see [raised]. *)
Inductive exn : Type :=
| ValueError (msg : string)
| OverflowError (msg : string)
| FileNotFoundError (msg : string)
| NotADirectoryError (msg : string)
| IndexError (msg : string)
| OtherError (msg : string).

(** A computation that returns a value or raises. *)
Definition result (A : Type) : Type := (exn + A)%type.

Definition ok {A} (a : A) : result A := inr a.
Definition raise {A} (e : exn) : result A := inl e.

Definition rbind {A B} (c : result A) (k : A -> result B) : result B :=
  match c with
  | inl e => inl e
  | inr a => k a
  end.

Declare Scope result_scope.
Delimit Scope result_scope with result.
Notation "'let*' x ':=' c 'in' k" := (rbind c (fun x => k))
  (at level 10, x pattern, c at level 100, k at level 200) : result_scope.

Definition raises {A} (c : result A) : Prop := exists e, c = inl e.

(** ** The numeric interface *)

Class Float (F : Type) : Type := {
  fadd : F -> F -> F;
  fsub : F -> F -> F;
  fmul : F -> F -> F;
  fdiv : F -> F -> F;             (* numpy scalar division: never raises *)
  fneg : F -> F;
  fsqrt : F -> F;
  fleb : F -> F -> bool;
  fltb : F -> F -> bool;
  feqb : F -> F -> bool;
  fisnan : F -> bool;
  of_int : Z -> F;                (* conversion of a Python int *)
  int_of : F -> result Z;         (* Python's [int(x)] *)
  ceil_intp : F -> result Z       (* [ceil] and the cast [np.arange] makes *)
}.

(** What the script takes from compiled libraries: the transcendental
    functions of the C library, and the inner product of two vectors of
    length three as the BLAS behind [np.dot] computes it.  In floating
    point a BLAS may fuse or reorder the operations, so the last bits of
    an inexact inner product are the library's and not numpy's. *)
Class Libm (F : Type) : Type := {
  fcos : F -> F;
  fsin : F -> F;
  flog : F -> F;
  fpi : F;
  fdot3 : F -> F -> F -> F -> F -> F -> F
}.

(** *** binary64 *)

Module B64.

Definition prec : Z := 53.
Definition emax : Z := 1024.

Definition float64 : Type := spec_float.

Definition add : float64 -> float64 -> float64 := SFadd prec emax.
Definition sub : float64 -> float64 -> float64 := SFsub prec emax.
Definition mul : float64 -> float64 -> float64 := SFmul prec emax.
Definition div : float64 -> float64 -> float64 := SFdiv prec emax.
Definition sqrt : float64 -> float64 := SFsqrt prec emax.

Definition isnan (x : float64) : bool :=
  match x with
  | S754_nan => true
  | _ => false
  end.

Definition of_Z (z : Z) : float64 := binary_normalize prec emax z 0 false.

(** The integer [m * 2^e] when [0 <= e], the floor of it otherwise. *)
Definition scale (m e : Z) : Z := Z.shiftl m e.

(** [int(x)]: truncation toward zero; NaN and the infinities raise. *)
Definition to_int (x : float64) : result Z :=
  match x with
  | S754_zero _ => ok 0%Z
  | S754_finite s m e => ok (cond_Zopp s (scale (Zpos m) e))
  | S754_infinity _ =>
      raise (OverflowError "cannot convert float infinity to integer")
  | S754_nan => raise (ValueError "cannot convert float NaN to integer")
  end.

Definition intp_min : Z := - 2 ^ 63.
Definition intp_max : Z := 2 ^ 63 - 1.

(** [_arange_safe_ceil_to_intp]: the ceiling of [x] as an index. *)
Definition ceil_to_intp (x : float64) : result Z :=
  match x with
  | S754_nan => raise (ValueError "arange: cannot compute length")
  | S754_infinity _ => raise (ValueError "Maximum allowed size exceeded")
  | S754_zero _ => ok 0%Z
  | S754_finite s m e =>
      let c := Z.opp (scale (Z.opp (cond_Zopp s (Zpos m))) e) in
      if (Z.leb intp_min c && Z.leb c intp_max)%bool then ok c
      else raise (ValueError "Maximum allowed size exceeded")
  end.

(** The values on which a conversion to an integer raises, and those a
    vanishing range produces. *)
Definition special (x : float64) : Prop :=
  x = S754_nan \/ exists s, x = S754_infinity s.

Definition zero_or_nan (x : float64) : Prop :=
  x = S754_nan \/ exists s, x = S754_zero s.

End B64.

#[export] Instance binary64 : Float B64.float64 := {
  fadd := B64.add;
  fsub := B64.sub;
  fmul := B64.mul;
  fdiv := B64.div;
  fneg := SFopp;
  fsqrt := B64.sqrt;
  fleb := SFleb;
  fltb := SFltb;
  feqb := SFeqb;
  fisnan := B64.isnan;
  of_int := B64.of_Z;
  int_of := B64.to_int;
  ceil_intp := B64.ceil_to_intp
}.

(** *** Exact real arithmetic *)

Module Exact.

Definition leb (a b : R) : bool := if Rle_dec a b then true else false.
Definition ltb (a b : R) : bool := if Rlt_dec a b then true else false.
Definition eqb (a b : R) : bool := if Req_dec_T a b then true else false.

Definition floor (r : R) : Z := (up r - 1)%Z.
Definition ceil (r : R) : Z := (- floor (- r))%Z.

Definition to_int (r : R) : result Z :=
  ok (if Rle_dec 0 r then floor r else ceil r).

Definition ceil_to_intp (r : R) : result Z :=
  let c := ceil r in
  if (Z.leb B64.intp_min c && Z.leb c B64.intp_max)%bool then ok c
  else raise (ValueError "Maximum allowed size exceeded").

End Exact.

#[export] Instance exact : Float R := {
  fadd := Rplus;
  fsub := Rminus;
  fmul := Rmult;
  fdiv := Rdiv;
  fneg := Ropp;
  fsqrt := sqrt;
  fleb := Exact.leb;
  fltb := Exact.ltb;
  feqb := Exact.eqb;
  fisnan := fun _ => false;
  of_int := IZR;
  int_of := Exact.to_int;
  ceil_intp := Exact.ceil_to_intp
}.

#[export] Instance exact_libm : Libm R := {
  fcos := cos;
  fsin := sin;
  flog := ln;
  fpi := PI;
  fdot3 := fun x1 y1 z1 x2 y2 z2 => (x1 * x2 + y1 * y2 + z1 * z2)%R
}.

(** ** Geometry, projection and histogram (lines 15-55) *)

Record Point3 (F : Type) : Type := mkPoint3 { px : F; py : F; pz : F }.

Arguments mkPoint3 {F} _ _ _.
Arguments px {F} _.
Arguments py {F} _.
Arguments pz {F} _.

Section Arrays.

Context {F : Type} `{Float F} `{Libm F}.

Local Open Scope result_scope.

Definition zero : F := of_int 0.
Definition one : F := of_int 1.

(** [np.argmax] over a non-empty array: the scan keeps the first maximum
    and stops at the first NaN. *)
Fixpoint argmax_scan (mp : F) (max_ind i : nat) (ip : list F) : nat :=
  match ip with
  | [] => max_ind
  | x :: ip' =>
      if fleb x mp then argmax_scan mp max_ind (S i) ip'
      else if fisnan x then i
      else argmax_scan x i (S i) ip'
  end.

Definition argmax (a : list F) : result nat :=
  match a with
  | [] => raise (ValueError "attempt to get argmax of an empty sequence")
  | x :: a' => ok (if fisnan x then 0%nat else argmax_scan x 0 1 a')
  end.

(** [find_highest_point]: [points[np.argmax(points[:, 2])]]. *)
Definition find_highest_point (points : list (Point3 F))
  : result (Point3 F) :=
  let* max_idx := argmax (map pz points) in
  match nth_error points max_idx with
  | Some p => ok p
  | None => raise (OtherError "index out of bounds")
  end.

(** [offset]: the highest point's (x, y, 0). *)
Definition offset (points : list (Point3 F)) : result (Point3 F) :=
  let* highest := find_highest_point points in
  ok (mkPoint3 (px highest) (py highest) zero).

(** [points - o], the offset subtracted from every row. *)
Definition shift (points : list (Point3 F)) (o : Point3 F)
  : list (Point3 F) :=
  map (fun p => mkPoint3 (fsub (px p) (px o)) (fsub (py p) (py o))
                         (fsub (pz p) (pz o))) points.

(** One entry of [np.dot(points, u)]: the inner product of a row and the
    vector, computed by the library. *)
Definition dot (p u : Point3 F) : F :=
  fdot3 (px p) (py p) (pz p) (px u) (py u) (pz u).

Definition dot_rows (points : list (Point3 F)) (u : Point3 F) : list F :=
  map (fun p => dot p u) points.

Definition column_stack (a b : list F) : list (F * F) := combine a b.

Definition project_to_plane (points : list (Point3 F)) (u v : Point3 F)
  : list (F * F) :=
  column_stack (dot_rows points u) (dot_rows points v).

(** [a.min()] and [a.max()]: NaN propagates, an empty array raises. *)
Definition fmin (a b : F) : F :=
  if fisnan a then a else if fisnan b then b
  else if fltb b a then b else a.

Definition fmax (a b : F) : F :=
  if fisnan a then a else if fisnan b then b
  else if fltb a b then b else a.

Definition array_min (a : list F) : result F :=
  match a with
  | [] => raise (ValueError "zero-size array to reduction operation minimum")
  | x :: a' => ok (fold_left fmin a' x)
  end.

Definition array_max (a : list F) : result F :=
  match a with
  | [] => raise (ValueError "zero-size array to reduction operation maximum")
  | x :: a' => ok (fold_left fmax a' x)
  end.

(** [np.arange(start, stop, step)] on floats: the length is
    [ceil((stop - start) / step)]; the first two entries are [start] and
    [start + step], entry [i] is [start + i * delta] with
    [delta = (start + step) - start].  (numpy corrects the length when the
    quotient underflows to zero; the script's quotient, (range + pd) / pd,
    cannot.) *)
Definition arange_fill (start delta : F) (len : nat) : list F :=
  map (fun i => fadd start (fmul (of_int (Z.of_nat i)) delta))
      (seq 2 (len - 2)).

Definition arange (start stop step : F) : result (list F) :=
  let* len := ceil_intp (fdiv (fsub stop start) step) in
  match Z.to_nat len with
  | O => ok []
  | S O => ok [start]
  | n =>
      let next := fadd start step in
      ok (start :: next :: arange_fill start (fsub next start) n)
  end.

(** [np.searchsorted(edges, x, side='right')] on sorted edges: the number
    of edges that are [<= x]. *)
Definition searchsorted_right (edges : list F) (x : F) : nat :=
  length (filter (fun e => fleb e x) edges).

(** The bin number [histogramdd] gives a coordinate: 0 and [length edges]
    are the outlier bins; a coordinate equal to the last edge is moved
    into the last proper bin. *)
Definition bin_index (edges : list F) (x : F) : nat :=
  let n := searchsorted_right edges x in
  match last (map Some edges) None with
  | Some e => if feqb x e then (n - 1)%nat else n
  | None => n
  end.

Fixpoint increasing (edges : list F) : bool :=
  match edges with
  | a :: (b :: _) as rest => negb (fltb b a) && increasing rest
  | _ => true
  end.

Definition count_in (points : list (F * F)) (xedges yedges : list F)
           (i j : nat) : nat :=
  length (filter (fun p => Nat.eqb (bin_index xedges (fst p)) i
                           && Nat.eqb (bin_index yedges (snd p)) j)
                 points).

(** [np.histogram2d(x, y, bins=[xbins, ybins])]: entry [i][j] counts the
    points of x-bin [i+1] and y-bin [j+1]; the outlier bins are cut off.
    Both edge arrays are checked to be monotonic first; then the last
    edge of each is read, which fails on an empty array. *)
Definition histogram2d (points : list (F * F)) (xedges yedges : list F)
  : result (list (list nat)) :=
  if negb (increasing xedges) then
    raise (ValueError "bins[0] must be monotonically increasing")
  else if negb (increasing yedges) then
    raise (ValueError "bins[1] must be monotonically increasing")
  else
    match xedges, yedges with
    | [], _ | _, [] =>
        raise (IndexError "index -1 is out of bounds for axis 0 with size 0")
    | _ :: _, _ :: _ =>
        ok (map (fun i =>
                   map (fun j => count_in points xedges yedges (S i) (S j))
                       (seq 0 (length yedges - 1)))
                (seq 0 (length xedges - 1)))
    end.

(** [H.T]: entry [j][i] of the result is entry [i][j] of [h]; [rows] and
    [cols] are the shape of [h]. *)
Definition transpose (rows cols : nat) (h : list (list nat))
  : list (list nat) :=
  map (fun j => map (fun i => nth j (nth i h []) 0%nat) (seq 0 rows))
      (seq 0 cols).

(** [hist2d]: the histogram, transposed so that rows follow y. *)
Definition hist2d (points : list (F * F)) (xbins ybins : list F)
  : result (list (list nat)) :=
  let* h := histogram2d points xbins ybins in
  ok (transpose (length xbins - 1) (length ybins - 1) h).

(** The sum of all the cells of a grid. *)
Definition grid_total (g : list (list nat)) : nat :=
  fold_right (fun row acc => (fold_right Nat.add 0 row + acc)%nat) 0%nat g.

End Arrays.

(** ** The body of the loop over the angles (lines 89-122) *)

Section Density.

Context {F : Type} `{Float F}.

Local Open Scope result_scope.

Definition ypx : Z := 1000.

(** Lines 90-94: the extent of the projected points and its two ranges. *)
Definition extent (a : list F) : result (F * F) :=
  let* lo := array_min a in
  let* hi := array_max a in
  ok (lo, hi).

Definition xrange (ext : F * F) : F := fsub (snd ext) (fst ext).

(** Line 97: [xpx = int(ypx / (yl / xl))]. *)
Definition image_width (xl yl : F) : result Z :=
  int_of (fdiv (of_int ypx) (fdiv yl xl)).

(** Line 100: [pd = np.sqrt((xl * yl) / len(projected_points))]. *)
Definition point_density (xl yl : F) (n : nat) : F :=
  fsqrt (fdiv (fmul xl yl) (of_int (Z.of_nat n))).

(** Lines 102-103: the bin edges of one axis. *)
Definition bin_edges (ext : F * F) (pd : F) : result (list F) :=
  arange (fst ext) (fadd (snd ext) pd) pd.

Record Grid : Type := mkGrid {
  width_px : Z;
  counts : list (list nat)
}.

(** Lines 89-106: from the projected points to the count grid. *)
Definition density_grid (projected_points : list (F * F)) : result Grid :=
  let* xext := extent (map fst projected_points) in
  let* yext := extent (map snd projected_points) in
  let xl := xrange xext in
  let yl := xrange yext in
  let* xpx := image_width xl yl in
  let pd := point_density xl yl (length projected_points) in
  let* xbins := bin_edges xext pd in
  let* ybins := bin_edges yext pd in
  let* arr := hist2d projected_points xbins ybins in
  ok (mkGrid xpx arr).

End Density.

(** ** Plane basis (lines 25-38) and rendering (lines 108-122) *)

Section Planes.

Context {F : Type} `{Float F} `{Libm F}.

Local Open Scope result_scope.

(** [np.radians]: the angle times pi / 180. *)
Definition radians (angle_deg : F) : F :=
  fmul angle_deg (fdiv fpi (of_int 180)).

Definition get_plane (angle_deg : F) : Point3 F * Point3 F * Point3 F :=
  let angle := radians angle_deg in
  let u := mkPoint3 (fcos angle) (fsin angle) zero in
  let v := mkPoint3 zero zero one in
  let n := mkPoint3 (fneg (fsin angle)) (fcos angle) zero in
  (u, v, n).

(** What [ax.imshow] is given: the data and the colour window; the colour
    map is 'binary' and the origin 'lower' in every call. *)
Record Image : Type := mkImage {
  img_data : list (list F);
  img_aspect : F;
  img_vmin : F;
  img_vmax : F
}.

(** Line 109: [larr = np.log(arr + 1)]. *)
Definition log_transform (arr : list (list nat)) : list (list F) :=
  map (map (fun c => flog (fadd (of_int (Z.of_nat c)) one))) arr.

(** [np.isfinite]: neither an infinity nor NaN, the numbers [x] with
    [x - x = 0]. *)
Definition isfinite (x : F) : bool := feqb (fsub x x) zero.

(** [Axes.set_aspect], which [imshow] calls with its [aspect]. *)
Definition set_aspect (aspect : F) : result unit :=
  if fleb aspect zero || negb (isfinite aspect) then
    raise (ValueError "aspect must be finite and positive")
  else ok tt.

(** Lines 115-122: the arguments of [imshow], then the call; [larr.max()]
    raises on a grid without cells, [imshow] on an aspect that is not
    positive (a width of 0 px). *)
Definition heatmap (g : Grid) : result Image :=
  let larr := log_transform (counts g) in
  let aspect := fdiv (of_int (width_px g)) (of_int ypx) in
  let* top := array_max (concat larr) in
  let* _ := set_aspect aspect in
  ok (mkImage larr aspect (of_int (-1)) (fmul top (fdiv one (of_int 2)))).

(** The colour of a cell, as matplotlib computes it: the value is mapped
    linearly from the window [vmin, vmax] to [0, 1], values outside the
    window are clipped, and the 'binary' map paints 0 white and 1 black.
    [darkness] is the clipped value, [gray_level] the painted level
    (1 is white). *)
Definition normalize (vmin vmax x : F) : F :=
  fdiv (fsub x vmin) (fsub vmax vmin).

Definition clip01 (t : F) : F :=
  if fltb t zero then zero else if fltb one t then one else t.

Definition cell (img : Image) (i j : nat) : F :=
  nth j (nth i (img_data img) []) zero.

Definition darkness (img : Image) (i j : nat) : F :=
  clip01 (normalize (img_vmin img) (img_vmax img) (cell img i j)).

Definition gray_level (img : Image) (i j : nat) : F :=
  fsub one (darkness img i j).

(** The value of a cell clipped to the window [vmin, vmax], before it is
    mapped to [0, 1]. *)
Definition clamped (img : Image) (i j : nat) : F :=
  let x := cell img i j in
  if fltb x (img_vmin img) then img_vmin img
  else if fltb (img_vmax img) x then img_vmax img
  else x.

End Planes.

Arguments Image F : clear implicits.

(** ** Files, log and the tasks (lines 57-214) *)

(** What the script writes with [logging]. *)
Inductive log_record : Type :=
| Processed (input_file : string)
| ErrorProcessing (file : string) (e : exn)
| NoSubdirectories (input_path : string)
| LookingInInputDirectory
| Found (n_tasks : nat) (n_workers : Z)
| Completed (successful total : nat).

(** A subdirectory of the input root, with what [glob] finds in it. *)
Record Folder : Type := mkFolder {
  folder_name : string;
  folder_las : list string;
  folder_laz : list string
}.

(** What the input path is on disk. *)
Inductive path_kind : Type :=
| Missing
| NotDirectory
| Directory (subdirs : list Folder) (las laz : list string).

(** The name of an image: [output_folder / f"{filename}_{angle}.png"].
    A file has one name here: the folder is the string the task is given,
    and a folder written in two ways is not modelled. *)
Record image_path : Type := mkImagePath {
  out_folder : string;
  file_stem : string;
  angle_of : Z
}.

(** Two names of the same file. *)
Definition image_path_eqb (p q : image_path) : bool :=
  String.eqb (out_folder p) (out_folder q)
  && String.eqb (file_stem p) (file_stem q)
  && Z.eqb (angle_of p) (angle_of q).

Section Tasks.

Context {F : Type} `{Float F} `{Libm F}.

(** The collaborators of the script: the directory tree, the reader of
    point clouds ([laspy.read]), the exception (if any) that creating a
    folder or writing a figure raises, [cpu_count], and [pathlib]:
    [Path.stem], the string of a path ([str(Path(a))]) and the string of
    a child of a path ([str(Path(a) / b)]), which depend on the platform
    and on how the path is written. *)
Record Env : Type := mkEnv {
  lookup : string -> path_kind;
  read_las : string -> result (list (Point3 F));
  mkdir_error : string -> option exn;
  savefig_error : image_path -> Image F -> option exn;
  stem : string -> string;
  cpu_count : Z;
  path_str : string -> string;
  path_child : string -> string -> string
}.

(** What a run changes: folders, images, log. *)
Record World : Type := mkWorld {
  folders : list string;
  images : list (image_path * Image F);
  log : list log_record
}.

(** Effectful code: a state transformer that returns or raises; what was
    written before an exception stays written. *)
Definition M (A : Type) : Type := World -> result A * World.

Definition ret {A} (a : A) : M A := fun w => (ok a, w).
Definition throw {A} (e : exn) : M A := fun w => (raise e, w).
Definition lift {A} (c : result A) : M A := fun w => (c, w).

Definition bind {A B} (c : M A) (k : A -> M B) : M B :=
  fun w =>
    match c w with
    | (inl e, w') => (inl e, w')
    | (inr a, w') => k a w'
    end.

(** [try: c  except Exception as e: handler e]. *)
Definition try_except {A} (c : M A) (handler : exn -> M A) : M A :=
  fun w =>
    match c w with
    | (inl e, w') => handler e w'
    | (inr a, w') => (inr a, w')
    end.

Definition append_log (w : World) (r : log_record) : World :=
  mkWorld (folders w) (images w) (log w ++ [r]).

Definition logging (r : log_record) : M unit :=
  fun w => (ok tt, append_log w r).

(** [mkdir(parents=True, exist_ok=True)]: the folder is there afterwards;
    a folder that was there is listed again, which changes nothing. *)
Definition mkdir (env : Env) (folder : string) : M unit :=
  fun w =>
    match mkdir_error env folder with
    | Some e => (raise e, w)
    | None => (ok tt, mkWorld (folder :: folders w) (images w) (log w))
    end.

(** [plt.savefig(filepath)]: the file is written; a file of that name
    that was there is replaced. *)
Definition savefig (env : Env) (filepath : image_path) (img : Image F)
  : M unit :=
  fun w =>
    match savefig_error env filepath img with
    | Some e => (raise e, w)
    | None =>
        (ok tt,
         mkWorld (folders w)
                 ((filepath, img)
                    :: filter (fun f => negb (image_path_eqb (fst f) filepath))
                              (images w))
                 (log w))
    end.

(** The image a file name holds, if any. *)
Definition image_at (w : World) (p : image_path) : option (Image F) :=
  match find (fun f => image_path_eqb (fst f) p) (images w) with
  | Some f => Some (snd f)
  | None => None
  end.

Fixpoint for_each {A} (l : list A) (body : A -> M unit) : M unit :=
  match l with
  | [] => ret tt
  | a :: l' => bind (body a) (fun _ => for_each l' body)
  end.

Definition las2numpy (las : list (Point3 F)) : list (Point3 F) :=
  map (fun r => mkPoint3 (px r) (py r) (pz r)) las.

Definition default_angles : list Z := [0; 45; 90; 135]%Z.

(** Lines 80-129: one pass of the loop. *)
Definition process_angle (env : Env) (input_file output_folder : string)
           (shifted_points : list (Point3 F)) (angle : Z) : M unit :=
  let filename := stem env input_file in
  let filepath := mkImagePath output_folder filename angle in
  let '(u, v, _) := get_plane (of_int angle) in
  let projected_points := project_to_plane shifted_points u v in
  bind (lift (density_grid projected_points)) (fun g =>
  bind (lift (heatmap g)) (fun img =>
  savefig env filepath img)).

Definition process_tree (env : Env) (input_file output_folder : string)
           (angles : list Z) : M unit :=
  bind (mkdir env output_folder) (fun _ =>
  bind (lift (read_las env input_file)) (fun las =>
  let points := las2numpy las in
  bind (lift (offset points)) (fun o =>
  let shifted_points := shift points o in
  bind (for_each angles
          (process_angle env input_file output_folder shifted_points))
       (fun _ => logging (Processed input_file))))).

End Tasks.

Arguments Env F : clear implicits.
Arguments World F : clear implicits.

Definition not_found_style (e : exn) : bool :=
  match e with
  | FileNotFoundError _ | NotADirectoryError _ => true
  | _ => false
  end.

(** The point-cloud files the discovery finds: those of the subdirectories
    when there are subdirectories, those of the root itself otherwise. *)
Definition discovered (k : path_kind) : list string :=
  match k with
  | Directory [] las laz => las ++ laz
  | Directory subdirs _ _ =>
      flat_map (fun d => folder_las d ++ folder_laz d) subdirs
  | _ => []
  end.

(** The tasks of the discovery: each of these files with its output
    folder, the output root for a file of the root itself, the child of
    the output root named after the subdirectory for a file of a
    subdirectory. *)
Definition discovered_tasks {F : Type} (env : Env F) (output_path : string)
           (k : path_kind) : list (string * string) :=
  match k with
  | Directory [] las laz =>
      map (fun file => (file, path_str env output_path)) (las ++ laz)
  | Directory subdirs _ _ =>
      flat_map (fun d =>
                  map (fun file =>
                         (file, path_child env output_path (folder_name d)))
                      (folder_las d ++ folder_laz d))
               subdirs
  | _ => []
  end.

(** The input root is missing, is not a directory, or holds no file. *)
Definition no_input (k : path_kind) : Prop :=
  k = Missing \/ k = NotDirectory \/ discovered k = [].

Section Orchestrator.

Context {F : Type} `{Float F} `{Libm F}.

(** The orchestrator is written over any behaviour of [process_tree]:
    what it guarantees does not depend on what a task does. *)
Variable process_tree_ : string -> string -> M (F := F) unit.

Definition task : Type := (string * string)%type.

(** Lines 133-141. *)
Definition process_file_wrapper (args : task) : M (F := F) bool :=
  let '(file, output_path) := args in
  try_except
    (bind (process_tree_ file output_path) (fun _ => ret true))
    (fun e => bind (logging (ErrorProcessing file e)) (fun _ => ret false)).

(** [Pool(n_workers)]: a pool needs at least one process. *)
Definition Pool (n_workers : Z) : M (F := F) unit :=
  if (n_workers <? 1)%Z
  then throw (ValueError "Number of processes must be at least 1")
  else ret tt.

(** [pool.map(f, tasks)]: one result per task, in the order of the tasks.
    The tasks share nothing but the disk and the log, so they are run
    one after the other here. *)
Fixpoint pool_map {A B} (f : A -> M (F := F) B) (tasks : list A)
  : M (F := F) (list B) :=
  match tasks with
  | [] => ret []
  | t :: tasks' =>
      bind (f t) (fun r =>
      bind (pool_map f tasks') (fun rs => ret (r :: rs)))
  end.

(** Lines 173-205: the list of the tasks. *)
Definition collect_tasks (env : Env F) (input_path output_path : string)
           (species_folders : list Folder) (las laz : list string)
  : M (F := F) (list task) :=
  bind
    (match species_folders with
     | [] =>
         bind (logging (NoSubdirectories input_path)) (fun _ =>
         bind (logging LookingInInputDirectory) (fun _ =>
         let las_files := (las ++ laz)%list in
         match las_files with
         | _ :: _ =>
             ret (map (fun file => (file, path_str env output_path))
                      las_files)
         | [] => throw (FileNotFoundError "No LAS/LAZ files found")
         end))
     | _ :: _ =>
         ret (flat_map
                (fun species_folder =>
                   let output_folder_path :=
                     path_child env output_path (folder_name species_folder) in
                   map (fun file => (file, output_folder_path))
                       (folder_las species_folder
                          ++ folder_laz species_folder))
                species_folders)
     end)
    (fun all_tasks =>
       match all_tasks with
       | [] => throw (FileNotFoundError "No LAS/LAZ files found to process")
       | _ :: _ => ret all_tasks
       end).

(** [sum(results)]. *)
Definition successes (results : list bool) : nat :=
  length (filter (fun b => b) results).

(** Lines 143-214. *)
Definition main (env : Env F) (input_path output_path : string)
           (n_workers : option Z) : M (F := F) unit :=
  match lookup env input_path with
  | Missing => throw (FileNotFoundError "Input path does not exist")
  | NotDirectory =>
      throw (NotADirectoryError "Input path is not a directory")
  | Directory species_folders las laz =>
      let n_workers :=
        match n_workers with
        | None => cpu_count env
        | Some n => n
        end in
      bind (collect_tasks env input_path output_path species_folders las laz)
        (fun all_tasks =>
      bind (logging (Found (length all_tasks) n_workers)) (fun _ =>
      bind (Pool n_workers) (fun _ =>
      bind (pool_map process_file_wrapper all_tasks) (fun results =>
      logging (Completed (successes results) (length all_tasks))))))
  end.

(** The number of workers [main] asks the pool for. *)
Definition workers (env : Env F) (n_workers : option Z) : Z :=
  match n_workers with
  | None => cpu_count env
  | Some n => n
  end.

(** A run of the tasks: every task is run once, in its turn, whatever the
    tasks before it did; a task that raises is logged with its file and
    its exception, and counts as [false]. *)
Inductive ran : list task -> World F -> list bool -> World F -> Prop :=
| ran_none (w : World F) : ran [] w [] w
| ran_success (file out : string) (tasks : list task) (w w1 w2 : World F)
              (results : list bool) :
    process_tree_ file out w = (ok tt, w1) ->
    ran tasks w1 results w2 ->
    ran ((file, out) :: tasks) w (true :: results) w2
| ran_failure (file out : string) (tasks : list task) (w w1 w2 : World F)
              (e : exn) (results : list bool) :
    process_tree_ file out w = (raise e, w1) ->
    ran tasks (append_log w1 (ErrorProcessing file e)) results w2 ->
    ran ((file, out) :: tasks) w (false :: results) w2.

(** [main] fails with a NotFound-style error, and no task has run: the
    world is the one [main] was started in, but for the two lines the
    flat discovery logs. *)
Definition fails_not_found (env : Env F) (input output : string)
           (n_workers : option Z) (w : World F) : Prop :=
  exists (e : exn) (w' : World F),
    main env input output n_workers w = (raise e, w') /\
    not_found_style e = true /\
    (w' = w \/
     w' = append_log (append_log w (NoSubdirectories input))
                     LookingInInputDirectory).

(** The tasks are run, the first of them first, and [main] ends with its
    summary. *)
Definition starts_tasks (env : Env F) (input output : string)
           (n_workers : option Z) (w : World F) : Prop :=
  exists (t : task) (tasks : list task) (w0 w1 : World F)
         (results : list bool),
    ran (t :: tasks) w0 results w1 /\
    main env input output n_workers w
    = (ok tt, append_log w1 (Completed (successes results)
                                       (length (t :: tasks)))).

(** What a call can raise when the exceptions that derive from
    [BaseException] alone are counted too ([KeyboardInterrupt],
    [SystemExit], [GeneratorExit]); [except Exception] does not catch
    these. *)
Inductive raised : Type :=
| Derived (e : exn)
| BaseOnly (name : string).

(** Lines 133-141 over a task that can raise any of them: the wrapper
    returns a flag, or lets the exception pass. *)
Definition process_file_wrapper_base
           (body : World F -> (raised + unit) * World F) (file : string)
  : World F -> (raised + bool) * World F :=
  fun w =>
    match body w with
    | (inr _, w1) => (inr true, w1)
    | (inl (Derived e), w1) =>
        (inr false, append_log w1 (ErrorProcessing file e))
    | (inl (BaseOnly name), w1) => (inl (BaseOnly name), w1)
    end.

(** A task of the model, which raises exceptions derived from [Exception]
    only, seen as such a task. *)
Definition as_base (c : M (F := F) unit)
  : World F -> (raised + unit) * World F :=
  fun w =>
    match c w with
    | (inl e, w1) => (inl (Derived e), w1)
    | (inr u, w1) => (inr u, w1)
    end.

End Orchestrator.

(** * Statements and sample data *)

(** ** Rendering *)

Section RenderingStatements.

Local Open Scope R_scope.

Definition count_at (a : list (list nat)) (i j : nat) : nat :=
  nth j (nth i a []) 0%nat.

Definition same_shape (a b : list (list nat)) : Prop :=
  map (@length nat) a = map (@length nat) b.

Definition dominates (a b : list (list nat)) : Prop :=
  forall i j, (count_at b i j <= count_at a i j)%nat.

Definition log1p (c : nat) : R := ln (IZR (Z.of_nat c) + 1).

End RenderingStatements.

(** ** The histogram *)

Section HistogramStatements.

Local Open Scope R_scope.

(** The edges [np.arange] makes, in exact arithmetic. *)
Definition edges_of (start step : R) (n : nat) : list R :=
  map (fun i => start + IZR (Z.of_nat i) * step) (seq 0 n).

End HistogramStatements.

(** ** Degenerate extents *)


(** The projected points of one pass of the loop. *)
Definition projection_at {F : Type} `{Float F} `{Libm F}
           (shifted_points : list (Point3 F)) (angle : Z) : list (F * F) :=
  let '(u, v, _) := get_plane (of_int angle) in
  project_to_plane shifted_points u v.

(** ** Sample runs *)

(** [pathlib] on POSIX for output roots that are written as a single
    name, as those of the samples are: the string of such a path is the
    name, and its child is joined to it with a slash. *)
Definition posix_child (a b : string) : string := (a ++ "/" ++ b)%string.

(** The real number a finite binary64 number stands for (0 for the
    zeros; the infinities and NaN stand for none, and are given 0). *)
Definition float_value (x : B64.float64) : R :=
  match x with
  | S754_finite s m e =>
      if (0 <=? e)%Z then IZR (cond_Zopp s (Zpos m) * 2 ^ e)
      else (IZR (cond_Zopp s (Zpos m)) / IZR (2 ^ (- e)))%R
  | _ => 0%R
  end.

Section Samples.

Local Open Scope R_scope.
Local Open Scope string_scope.

(** A root directory with one point-cloud file and no subdirectory; no
    collaborator fails. *)
Definition flat_env : Env R :=
  mkEnv (fun _ => Directory [] ["tree1.las"] [])
        (fun _ => ok [mkPoint3 0 0 1])
        (fun _ => None)
        (fun _ _ => None)
        (fun _ => "tree1")
        4
        (fun a => a)
        posix_child.

Definition empty_world : World R := mkWorld [] [] [].

(** The task the wrapper runs: [process_tree] with its default angles. *)
Definition flat_task : string -> string -> M (F := R) unit :=
  fun input_file output_folder =>
    process_tree flat_env input_file output_folder default_angles.

Definition b64_point (x y z : Z) : Point3 B64.float64 :=
  mkPoint3 (B64.of_Z x) (B64.of_Z y) (B64.of_Z z).

(** The libraries at the arguments the sample runs give them: the angles
    0, 45, 90 and 135 degrees in radians, and the logarithms of 1, 2 and 3
    (the binary64 numbers nearest to the exact values); other arguments
    are left as NaN.  The inner product is summed from left to right
    without fusing, one of the evaluations a BLAS may make; where the
    products and their sums are exact, as for the clouds below at 0 and
    90 degrees, every evaluation gives the same. *)
Definition b64 (m : positive) (e : Z) : B64.float64 := S754_finite false m e.

Definition radians_45 : B64.float64 := b64 7074237752028440 (-53).
Definition radians_90 : B64.float64 := b64 7074237752028440 (-52).
Definition radians_135 : B64.float64 := b64 5305678314021330 (-51).
Definition cos_45 : B64.float64 := b64 6369051672525773 (-53).
Definition sin_45 : B64.float64 := b64 6369051672525772 (-53).
Definition cos_90 : B64.float64 := b64 4967757600021511 (-106).

Definition libm_table : Libm B64.float64 := {|
  fcos := fun x =>
    if SFeqb x (B64.of_Z 0) then B64.of_Z 1
    else if SFeqb x radians_45 then cos_45
    else if SFeqb x radians_90 then cos_90
    else if SFeqb x radians_135 then SFopp sin_45
    else S754_nan;
  fsin := fun x =>
    if SFeqb x (B64.of_Z 0) then x
    else if SFeqb x radians_45 then sin_45
    else if SFeqb x radians_90 then B64.of_Z 1
    else if SFeqb x radians_135 then cos_45
    else S754_nan;
  flog := fun x =>
    if SFeqb x (B64.of_Z 1) then B64.of_Z 0
    else if SFeqb x (B64.of_Z 2) then b64 6243314768165359 (-53)
    else if SFeqb x (B64.of_Z 3) then b64 4947709893870347 (-52)
    else S754_nan;
  fpi := b64 7074237752028440 (-51);
  fdot3 := fun x1 y1 z1 x2 y2 z2 =>
    B64.add (B64.add (B64.mul x1 x2) (B64.mul y1 y2)) (B64.mul z1 z2)
|}.

(** A cloud of a single point: each of its projections is one point. *)
Definition single_point_env : Env B64.float64 :=
  mkEnv (fun _ => Directory [] ["tree1.las"] [])
        (fun _ => ok [b64_point 1 2 3])
        (fun _ => None)
        (fun _ _ => None)
        (fun _ => "tree1")
        4
        (fun a => a)
        posix_child.

(** A cloud of two points that is seen edge-on at 90 degrees: there
    x * cos 90 + y * sin 90 = cos_90 - cos_90 = 0 for the second point as
    for the first, while at 0 and 45 degrees the two projections differ. *)
Definition tilted_cloud : list (Point3 B64.float64) :=
  [b64_point 0 0 1; mkPoint3 (B64.of_Z 1) (SFopp cos_90) (B64.of_Z 0)].

Definition tilted_env : Env B64.float64 :=
  mkEnv (fun _ => Directory [] ["tree1.las"] [])
        (fun _ => ok tilted_cloud)
        (fun _ => None)
        (fun _ _ => None)
        (fun _ => "tree1")
        4
        (fun a => a)
        posix_child.

(** A cloud of nine points on the integers from 0 to 31; its highest point
    is above the origin, so the offset is zero. *)
Definition skewed_cloud : list (Point3 B64.float64) :=
  [b64_point 0 0 31; b64_point 31 0 0; b64_point 1 0 1; b64_point 2 0 2;
   b64_point 3 0 3; b64_point 4 0 4; b64_point 5 0 5; b64_point 6 0 6;
   b64_point 7 0 7].

(** Its projection at angle 0: the points (x, z). *)
Definition skewed_points : list (B64.float64 * B64.float64) :=
  map (fun p => (B64.of_Z (fst p), B64.of_Z (snd p)))
      [(0, 31); (31, 0); (1, 1); (2, 2); (3, 3); (4, 4); (5, 5); (6, 6);
       (7, 7)]%Z.

End Samples.

(** * The command line, and statements about the rest of the script *)

(** ** The command line (lines 216-238) *)

(** How the script ends: with [sys.exit(code)] (the end of the script is
    code 0), or with an exception that no handler catches, which Python
    reports by a traceback and the status 1. *)
Inductive exit_status : Type :=
| Exit (code : Z)
| Traceback (e : exn).

Definition status_code (s : exit_status) : Z :=
  match s with
  | Exit code => code
  | Traceback _ => 1%Z
  end.

(** What the block itself prints ([print]) or logs ([logging.error]). *)
Inductive console : Type :=
| Usage
| Fatal (e : exn).

Section CommandLine.

Context {F : Type}.

Variable process_tree_ : string -> string -> M (F := F) unit.

(** Python's [int] on a string: the number, or [ValueError]. *)
Variable parse_int : string -> result Z.

(** Line 232: [int(sys.argv[3]) if len(sys.argv) > 3 else None]. *)
Definition parse_workers (rest : list string) : result (option Z) :=
  match rest with
  | [] => ok None
  | a :: _ => rbind (parse_int a) (fun n => ok (Some n))
  end.

(** Lines 216-238; [argv] is [sys.argv], the name of the script first.
    The conversion of the worker count is outside the [try]. *)
Definition script (env : Env F) (argv : list string) (w : World F)
  : exit_status * list console * World F :=
  match argv with
  | _ :: input_path :: output_path :: rest =>
      match parse_workers rest with
      | inl e => (Traceback e, [], w)
      | inr n_workers =>
          match main process_tree_ env input_path output_path n_workers w with
          | (inr _, w') => (Exit 0, [], w')
          | (inl e, w') => (Exit 1, [Fatal e], w')
          end
      end
  | _ => (Exit 1, [Usage], w)
  end.

End CommandLine.

(** ** The points a histogram counts *)

(** The point falls in a proper bin of both axes. *)
Definition in_grid {F : Type} `{Float F} (xedges yedges : list F)
           (p : F * F) : bool :=
  let bx := bin_index xedges (fst p) in
  let by_ := bin_index yedges (snd p) in
  ((1 <=? bx) && (bx <=? length xedges - 1)
   && ((1 <=? by_) && (by_ <=? length yedges - 1)))%nat.

(** ** More sample data *)

Section MoreSamples.

Local Open Scope R_scope.
Local Open Scope string_scope.

(** An input root with one species folder and a stray file beside it. *)
Definition species_root : path_kind :=
  Directory [mkFolder "Oak" ["in/Oak/tree1.las"] ["in/Oak/tree2.laz"]]
            ["in/stray.las"] [].

Definition species_env : Env R :=
  mkEnv (fun _ => species_root)
        (fun _ => ok [mkPoint3 0 0 1])
        (fun _ => None)
        (fun _ _ => None)
        (fun _ => "tree1")
        4
        (fun a => a)
        posix_child.

(** Four projected points on a square of side 2. *)
Definition square_points : list (R * R) := [(0, 0); (2, 2); (1, 1); (1, 1)].

(** A cloud that is seen as [square_points] from the front. *)
Definition square_cloud : list (Point3 R) :=
  [mkPoint3 0 0 0; mkPoint3 2 0 2; mkPoint3 1 0 1; mkPoint3 1 0 1].

(** A file that holds no point. *)
Definition empty_cloud_env : Env R :=
  mkEnv (fun _ => Directory [] ["empty.las"] [])
        (fun _ => ok [])
        (fun _ => None)
        (fun _ _ => None)
        (fun _ => "empty")
        4
        (fun a => a)
        posix_child.

(** The worker counts a run of the script is given in the samples. *)
Definition sample_int (s : string) : result Z :=
  if String.eqb s "4" then ok 4%Z
  else raise (ValueError "invalid literal for int() with base 10").

(** Three projected points, the last of them beyond the edges, and the
    edges of two bins in x and one bin in y. *)
Definition strip_points : list (B64.float64 * B64.float64) :=
  map (fun p => (B64.of_Z (fst p), B64.of_Z (snd p)))
      [(0, 0); (1, 0); (5, 0)]%Z.

Definition strip_xbins : list B64.float64 := map B64.of_Z [0; 1; 2]%Z.

Definition strip_ybins : list B64.float64 := map B64.of_Z [0; 1]%Z.

(** A cloud whose second point has a height that is not a number. *)
Definition nan_point : Point3 B64.float64 :=
  mkPoint3 (B64.of_Z 1) (B64.of_Z 1) S754_nan.

End MoreSamples.

(** * Properties *)

(** ** Projection *)

Section ProjectionFacts.

Context {F : Type} `{Float F} `{Libm F}.

Lemma column_stack_map (A : Type) (f g : A -> F) (l : list A) :
  column_stack (map f l) (map g l) = map (fun a => (f a, g a)) l.
Proof.
  unfold column_stack.
  induction l as [|a l IH]; simpl; [reflexivity | now rewrite IH].
Qed.

Lemma project_to_plane_map (points : list (Point3 F)) (u v : Point3 F) :
  project_to_plane points u v = map (fun p => (dot p u, dot p v)) points.
Proof. apply column_stack_map. Qed.

End ProjectionFacts.

(** C2: [project_to_plane] gives one 2-D point per input point, in the
    order of the input, and the i-th is (p_i . u, p_i . v): the inner
    product with u first, with v second.  In exact arithmetic the inner
    product is the sum of the three products of the coordinates; on
    binary64 it is that sum as the BLAS behind [np.dot] rounds it.  The
    function is pure: the input list is still the argument's value
    afterwards. *)
Theorem project_to_plane_pointwise :
  (forall (points : list (Point3 R)) (u v : Point3 R),
      length (project_to_plane points u v) = length points /\
      forall i : nat,
        nth_error (project_to_plane points u v) i
        = option_map
            (fun p => ((px p * px u + py p * py u + pz p * pz u)%R,
                       (px p * px v + py p * py v + pz p * pz v)%R))
            (nth_error points i)) /\
  (forall (F : Type) (HF : Float F) (HL : Libm F)
          (points : list (Point3 F)) (u v : Point3 F),
      length (project_to_plane points u v) = length points /\
      forall i : nat,
        nth_error (project_to_plane points u v) i
        = option_map
            (fun p => (fdot3 (px p) (py p) (pz p) (px u) (py u) (pz u),
                       fdot3 (px p) (py p) (pz p) (px v) (py v) (pz v)))
            (nth_error points i)).
Proof.
  split.
  - intros points u v. rewrite project_to_plane_map. split.
    + apply length_map.
    + intro i. apply nth_error_map.
  - intros F HF HL points u v. rewrite project_to_plane_map. split.
    + apply length_map.
    + intro i. apply nth_error_map.
Qed.

(** ** Facts of exact arithmetic *)

Module ExactFacts.

Local Open Scope R_scope.

Lemma leb_true (a b : R) : a <= b -> Exact.leb a b = true.
Proof. intro Hab. unfold Exact.leb. destruct (Rle_dec a b); tauto. Qed.

Lemma leb_false (a b : R) : b < a -> Exact.leb a b = false.
Proof.
  intro Hab. unfold Exact.leb. destruct (Rle_dec a b); [lra | reflexivity].
Qed.

Lemma ltb_true (a b : R) : a < b -> Exact.ltb a b = true.
Proof. intro Hab. unfold Exact.ltb. destruct (Rlt_dec a b); tauto. Qed.

Lemma ltb_false (a b : R) : b <= a -> Exact.ltb a b = false.
Proof.
  intro Hab. unfold Exact.ltb. destruct (Rlt_dec a b); [lra | reflexivity].
Qed.

Lemma floor_spec (r : R) : IZR (Exact.floor r) <= r < IZR (Exact.floor r) + 1.
Proof.
  unfold Exact.floor. rewrite minus_IZR.
  destruct (archimed r) as [Hgt Hle]. simpl. lra.
Qed.

Lemma floor_unique (r : R) (z : Z) : IZR z <= r < IZR z + 1 -> Exact.floor r = z.
Proof.
  intros [Hlo Hhi]. destruct (floor_spec r) as [Flo Fhi].
  assert (Hlt1 : (z < Exact.floor r + 1)%Z).
  { apply lt_IZR. rewrite plus_IZR. simpl. lra. }
  assert (Hlt2 : (Exact.floor r < z + 1)%Z).
  { apply lt_IZR. rewrite plus_IZR. simpl. lra. }
  lia.
Qed.

End ExactFacts.

(** ** Plane basis *)

Section PlaneFacts.

Local Open Scope R_scope.

(** C3: for every angle [a] in degrees, with [t = a * (PI / 180)],
    [get_plane a] is u = (cos t, sin t, 0), v = (0, 0, 1),
    n = (- sin t, cos t, 0); u and n have length one and are orthogonal.
    Stated in exact arithmetic. *)
Theorem get_plane_orthonormal (a : R) :
  let t := a * (PI / 180) in
  let '(u, v, n) := get_plane a in
  u = mkPoint3 (cos t) (sin t) 0 /\
  v = mkPoint3 0 0 1 /\
  n = mkPoint3 (- sin t) (cos t) 0 /\
  dot u u = 1 /\ dot n n = 1 /\ dot u n = 0.
Proof.
  intro t. unfold get_plane, radians, dot, zero, one. simpl. fold t.
  pose proof (sin2_cos2 t) as Hsc. unfold Rsqr in Hsc.
  repeat split; lra.
Qed.

(** The second coordinate of a projection onto [v = (0, 0, 1)]. *)
Lemma dot_vertical (p : Point3 R) : dot p (mkPoint3 0 0 1) = pz p.
Proof. unfold dot. simpl. lra. Qed.

Lemma offset_vertical (points : list (Point3 R)) (o : Point3 R) :
  offset points = ok o -> pz o = 0.
Proof.
  unfold offset. destruct (find_highest_point points) as [e|h]; simpl.
  - discriminate.
  - intro E. injection E as <-. reflexivity.
Qed.

(** C10: at every angle the second coordinate of each projected point is
    the z-coordinate of the shifted point, which is the z-coordinate of
    the point itself since the offset has z = 0; so the vertical
    coordinates are the same at all angles.  Stated in exact arithmetic. *)
Theorem vertical_coordinate_fixed
        (points : list (Point3 R)) (o : Point3 R) (angle : R) :
  offset points = ok o ->
  let shifted := shift points o in
  let '(u, v, _) := get_plane angle in
  map snd (project_to_plane shifted u v) = map pz shifted /\
  map pz shifted = map pz points /\
  forall angle' : R,
    let '(u', v', _) := get_plane angle' in
    map snd (project_to_plane shifted u' v')
    = map snd (project_to_plane shifted u v).
Proof.
  intros Ho shifted.
  assert (Hsnd : forall (u : Point3 R) (l : list (Point3 R)),
             map snd (project_to_plane l u (mkPoint3 0 0 1)) = map pz l).
  { intros u l. rewrite project_to_plane_map, map_map. simpl.
    apply map_ext. intro p. apply dot_vertical. }
  unfold get_plane, zero, one. simpl.
  split; [apply Hsnd | split].
  - unfold shifted, shift. rewrite map_map. simpl.
    rewrite (offset_vertical _ Ho).
    rewrite <- (map_id (map pz points)), map_map.
    apply map_ext. intro p. lra.
  - intro angle'. now rewrite !Hsnd.
Qed.

End PlaneFacts.

(** ** The highest point *)

Section HighestPoint.

Local Open Scope R_scope.

(** The scan of [np.argmax], in exact arithmetic: started after a prefix
    [pre] whose first maximum [mp] is at [max_ind], it ends at the first
    maximum of the whole list. *)
Lemma argmax_scan_first_max (ip pre : list R) (mp : R) (max_ind : nat) :
  nth_error pre max_ind = Some mp ->
  (forall x, In x pre -> x <= mp) ->
  (forall j x, (j < max_ind)%nat -> nth_error pre j = Some x -> x < mp) ->
  exists m,
    let r := argmax_scan mp max_ind (length pre) ip in
    nth_error (pre ++ ip) r = Some m /\
    (forall x, In x (pre ++ ip) -> x <= m) /\
    (forall j x, (j < r)%nat -> nth_error (pre ++ ip) j = Some x -> x < m).
Proof.
  revert pre mp max_ind.
  induction ip as [|x ip IH]; intros pre mp max_ind Hnth Hle Hlt.
  - exists mp. simpl. rewrite app_nil_r. auto.
  - simpl. unfold Exact.leb. destruct (Rle_dec x mp) as [Hx|Hx].
    + destruct (IH (pre ++ [x]) mp max_ind) as [m Hm].
      * rewrite nth_error_app1; [exact Hnth|].
        apply nth_error_Some. congruence.
      * intros y Hy. apply in_app_or in Hy.
        destruct Hy as [Hy|[<-|[]]]; auto.
      * intros j y Hj Hy. apply (Hlt j y Hj).
        rewrite nth_error_app1 in Hy; [exact Hy|].
        assert (max_ind < length pre)%nat
          by (apply nth_error_Some; congruence).
        lia.
      * exists m. rewrite length_app in Hm. simpl in Hm.
        replace (length pre + 1)%nat with (S (length pre)) in Hm by lia.
        rewrite <- app_assoc in Hm. exact Hm.
    + destruct (IH (pre ++ [x]) x (length pre)) as [m Hm].
      * rewrite nth_error_app2 by lia.
        now rewrite Nat.sub_diag.
      * intros y Hy. apply in_app_or in Hy.
        destruct Hy as [Hy|[<-|[]]]; [|lra].
        specialize (Hle y Hy). lra.
      * intros j y Hj Hy.
        rewrite nth_error_app1 in Hy by exact Hj.
        apply nth_error_In in Hy. specialize (Hle y Hy). lra.
      * exists m. rewrite length_app in Hm. simpl in Hm.
        replace (length pre + 1)%nat with (S (length pre)) in Hm by lia.
        rewrite <- app_assoc in Hm. exact Hm.
Qed.

Lemma argmax_first_max (a : list R) :
  a <> [] ->
  exists r m,
    argmax a = ok r /\ nth_error a r = Some m /\
    (forall x, In x a -> x <= m) /\
    (forall j x, (j < r)%nat -> nth_error a j = Some x -> x < m).
Proof.
  destruct a as [|x a]; [congruence|]. intros _.
  destruct (@argmax_scan_first_max a [x] x 0%nat) as [m Hm].
  - reflexivity.
  - intros y [<-|[]]. lra.
  - intros j y Hj. lia.
  - exists (argmax_scan x 0 1 a), m. split; [reflexivity | exact Hm].
Qed.

(** C4: on a non-empty sequence [find_highest_point] returns an element
    whose z is at least the z of every element, and it is the first such
    element: every point before it is strictly lower.  Stated in exact
    arithmetic. *)
Theorem find_highest_point_first_max (points : list (Point3 R)) :
  points <> [] ->
  exists (i : nat) (p : Point3 R),
    find_highest_point points = ok p /\
    nth_error points i = Some p /\
    (forall q, In q points -> pz q <= pz p) /\
    (forall j q, (j < i)%nat -> nth_error points j = Some q -> pz q < pz p).
Proof.
  intro Hne.
  destruct (@argmax_first_max (map pz points)) as (r & m & Ha & Hn & Hle & Hlt).
  - destruct points; [congruence | discriminate].
  - rewrite nth_error_map in Hn.
    destruct (nth_error points r) as [p|] eqn:Hp; [|discriminate].
    injection Hn as <-.
    exists r, p. unfold find_highest_point. rewrite Ha. simpl. rewrite Hp.
    repeat split.
    + intros q Hq. apply Hle. now apply in_map.
    + intros j q Hj Hq. apply (Hlt j (pz q) Hj).
      rewrite nth_error_map, Hq. reflexivity.
Qed.

End HighestPoint.

(** ** The width of the image *)

Section ImageWidth.

Local Open Scope R_scope.

Lemma image_width_floor (xl yl : R) :
  0 < xl -> 0 < yl ->
  image_width xl yl = ok (Exact.floor (1000 / (yl / xl))).
Proof.
  intros Hx Hy. unfold image_width, ypx. simpl. unfold Exact.to_int.
  assert (Hq : 0 < 1000 / (yl / xl)).
  { apply Rdiv_lt_0_compat; [lra|]. now apply Rdiv_lt_0_compat. }
  destruct (Rle_dec 0 (1000 / (yl / xl))); [reflexivity | lra].
Qed.

(** Division of integers, in the reals. *)
Lemma div_floor (m d : Z) :
  (0 < d)%Z -> IZR (m / d) <= IZR m / IZR d < IZR (m / d) + 1.
Proof.
  intro Hd. pose proof (Z.div_mod m d ltac:(lia)) as Hm.
  pose proof (Z.mod_pos_bound m d Hd) as Hr.
  assert (HdR : 0 < IZR d) by now apply IZR_lt.
  assert (Hm' : IZR m = IZR d * IZR (m / d) + IZR (m mod d))
    by (rewrite <- mult_IZR, <- plus_IZR; now f_equal).
  assert (Hr0 : 0 <= IZR (m mod d)) by (apply IZR_le; lia).
  assert (Hr1 : IZR (m mod d) < IZR d) by (apply IZR_lt; lia).
  split.
  - apply Rmult_le_reg_r with (IZR d); [exact HdR|].
    unfold Rdiv. rewrite Rmult_assoc, Rinv_l by lra. nra.
  - apply Rmult_lt_reg_r with (IZR d); [exact HdR|].
    unfold Rdiv. rewrite Rmult_assoc, Rinv_l by lra. nra.
Qed.

(** [int] on binary64 cuts the number toward zero. *)
Lemma to_int_truncates (q : B64.float64) (w : Z) :
  B64.to_int q = ok w ->
  (0 <= float_value q -> IZR w <= float_value q < IZR w + 1) /\
  (float_value q <= 0 -> IZR w - 1 < float_value q <= IZR w).
Proof.
  destruct q as [s|s| |s m e]; try discriminate.
  - intro E. injection E as <-. simpl. lra.
  - intro E. injection E as <-.
    unfold float_value, B64.scale.
    destruct (Z.leb_spec 0 e) as [He|He].
    + rewrite Z.shiftl_mul_pow2 by exact He.
      assert (E : (cond_Zopp s (Z.pos m) * 2 ^ e)%Z
                  = cond_Zopp s (Z.pos m * 2 ^ e))
        by (destruct s; cbn [cond_Zopp]; lia).
      rewrite E. lra.
    + rewrite Z.shiftl_div_pow2 by lia.
      assert (Hd : (0 < 2 ^ (- e))%Z) by (apply Z.pow_pos_nonneg; lia).
      pose proof (div_floor (Z.pos m) Hd) as [Hlo Hhi].
      assert (HdR : 0 < IZR (2 ^ (- e))) by now apply IZR_lt.
      assert (Hm : 0 < IZR (Z.pos m) / IZR (2 ^ (- e))).
      { apply Rdiv_lt_0_compat; [apply IZR_lt; lia | exact HdR]. }
      destruct s; cbn [cond_Zopp].
      * rewrite !opp_IZR.
        replace (- IZR (Z.pos m) / IZR (2 ^ (- e)))
          with (- (IZR (Z.pos m) / IZR (2 ^ (- e)))) by (field; lra).
        lra.
      * lra.
Qed.

(** C7, as the code has it: the height is 1000, and the width, when it
    is computed, is the binary64 quotient q = 1000 / (yl / xl) cut to an
    integer toward zero ([int] truncates; it does not round to the
    nearest integer), so w <= q < w + 1 for q >= 0; q is neither an
    infinity nor NaN then.  Stated on binary64: q is the quotient as
    rounded by the two divisions. *)
Theorem image_width_truncates (xl yl : B64.float64) (w : Z) :
  image_width xl yl = ok w ->
  let q := B64.div (B64.of_Z 1000) (B64.div yl xl) in
  ypx = 1000%Z /\
  ~ B64.special q /\
  (0 <= float_value q -> IZR w <= float_value q < IZR w + 1) /\
  (float_value q <= 0 -> IZR w - 1 < float_value q <= IZR w).
Proof.
  intros Hw q. split; [reflexivity|].
  unfold image_width in Hw. cbn [fdiv of_int int_of binary64] in Hw.
  change (B64.div (B64.of_Z ypx) (B64.div yl xl)) with q in Hw.
  split.
  - intros [Hnan|[s Hinf]]; rewrite ?Hnan, ?Hinf in Hw; discriminate.
  - now apply to_int_truncates.
Qed.

(** When the quotient is an infinity or NaN no width is computed: [int]
    raises. *)
Lemma image_width_raises_iff (xl yl : B64.float64) :
  raises (image_width xl yl)
  <-> B64.special (B64.div (B64.of_Z 1000) (B64.div yl xl)).
Proof.
  unfold image_width. cbn [fdiv of_int int_of binary64].
  change (B64.of_Z ypx) with (B64.of_Z 1000).
  destruct (B64.div (B64.of_Z 1000) (B64.div yl xl)) as [s|s| |s m e].
  - split; [intros [e He]; discriminate|].
    intros [Hn|[s' Hi]]; discriminate.
  - split; [right; now exists s | intros _; eexists; reflexivity].
  - split; [now left | intros _; eexists; reflexivity].
  - split; [intros [e' He]; discriminate|].
    intros [Hn|[s' Hi]]; discriminate.
Qed.

Lemma image_width_2_3 : image_width 2 3 = ok 666%Z.
Proof.
  rewrite image_width_floor by lra. unfold ok. f_equal.
  apply ExactFacts.floor_unique. simpl. lra.
Qed.

(** C7 as stated fails: for xl = 2 and yl = 3 the quotient is 666.66...,
    the width is 666 and not the nearest integer 667, in exact arithmetic
    and on binary64. *)
Lemma image_width_not_rounded :
  ~ (forall xl yl : R,
        0 < xl -> 0 < yl ->
        exists w : Z,
          image_width xl yl = ok w /\
          Rabs (1000 / (yl / xl) - IZR w) <= 1 / 2) /\
  ~ (forall (xl yl : B64.float64) (w : Z),
        image_width xl yl = ok w ->
        Rabs (float_value (B64.div (B64.of_Z 1000) (B64.div yl xl)) - IZR w)
        <= 1 / 2).
Proof.
  split.
  - intro Hall. destruct (Hall 2 3) as (w & Hw & Hab); [lra | lra |].
    rewrite image_width_2_3 in Hw. injection Hw as <-.
    rewrite Rabs_pos_eq in Hab; lra.
  - intro Hall.
    assert (Hw : image_width (B64.of_Z 2) (B64.of_Z 3) = ok 666%Z)
      by (vm_compute; reflexivity).
    specialize (Hall (B64.of_Z 2) (B64.of_Z 3) 666%Z Hw).
    assert (Hq : B64.div (B64.of_Z 1000) (B64.div (B64.of_Z 3) (B64.of_Z 2))
                 = S754_finite false 5864062014805333 (-43))
      by (vm_compute; reflexivity).
    rewrite Hq in Hall. unfold float_value in Hall.
    cbn [Z.leb Z.compare cond_Zopp Z.opp] in Hall.
    change (2 ^ 43)%Z with 8796093022208%Z in Hall.
    rewrite Rabs_pos_eq in Hall; lra.
Qed.

(** The same input on binary64. *)
Example image_width_2_3_binary64 :
  image_width (B64.of_Z 2) (B64.of_Z 3) = ok 666%Z.
Proof. vm_compute. reflexivity. Qed.

(** The quotient is the rounded one: for xl = 3 and yl = 25 the exact
    quotient is 120, the binary64 quotient is 119.99999999999999 and the
    width is 119. *)
Example image_width_3_25_binary64 :
  image_width (B64.of_Z 3) (B64.of_Z 25) = ok 119%Z.
Proof. vm_compute. reflexivity. Qed.

Example image_width_3_25_exact : image_width 3 25 = ok 120%Z.
Proof.
  rewrite image_width_floor by lra. unfold ok. f_equal.
  apply ExactFacts.floor_unique. simpl. lra.
Qed.

End ImageWidth.

(** ** Rendering *)

Section Rendering.

Local Open Scope R_scope.

Lemma log1p_0 : log1p 0 = 0.
Proof. unfold log1p. simpl. rewrite Rplus_0_l. apply ln_1. Qed.

Lemma log1p_le (c d : nat) : (c <= d)%nat -> log1p c <= log1p d.
Proof.
  intro Hcd. unfold log1p.
  assert (Hc : 0 <= IZR (Z.of_nat c)) by (apply IZR_le; lia).
  assert (Hle : IZR (Z.of_nat c) <= IZR (Z.of_nat d)) by (apply IZR_le; lia).
  destruct (Rle_lt_or_eq_dec _ _ Hle) as [Hlt|Heq].
  - left. apply ln_increasing; lra.
  - rewrite Heq. lra.
Qed.

Lemma log1p_nonneg (c : nat) : 0 <= log1p c.
Proof. rewrite <- log1p_0. apply log1p_le. lia. Qed.

Lemma cell_log_transform (g : Grid) (aspect vmin vmax : R) (i j : nat) :
  cell (mkImage (log_transform (counts g)) aspect vmin vmax) i j
  = log1p (count_at (counts g) i j).
Proof.
  unfold cell, count_at, log_transform, zero. simpl.
  change (fun c : nat => ln (IZR (Z.of_nat c) + 1)) with log1p.
  change (@nil R) with (map log1p []).
  rewrite (map_nth (map log1p)), <- log1p_0.
  apply map_nth.
Qed.

Lemma fold_fmax_invariant (P : R -> Prop) (l : list R) (x : R) :
  P x -> (forall y, In y l -> P y) -> P (fold_left fmax l x).
Proof.
  revert x. induction l as [|y l IH]; intros x Hx Hl; simpl; [exact Hx|].
  apply IH.
  - unfold fmax. simpl. destruct (Exact.ltb x y); [apply Hl; now left | exact Hx].
  - intros z Hz. apply Hl. now right.
Qed.

Lemma fmax_exact (a b : R) : fmax a b = Rmax a b.
Proof.
  unfold fmax, Rmax. simpl. unfold Exact.ltb.
  destruct (Rlt_dec a b), (Rle_dec a b); lra.
Qed.

Lemma fold_fmax_upper (l : list R) (x : R) :
  x <= fold_left fmax l x /\ forall y, In y l -> y <= fold_left fmax l x.
Proof.
  revert x. induction l as [|a l IH]; intro x; simpl.
  - split; [lra | tauto].
  - rewrite fmax_exact. destruct (IH (Rmax x a)) as [Hx Hl].
    pose proof (Rmax_l x a). pose proof (Rmax_r x a).
    split; [lra|]. intros y [<-|Hy]; [lra | now apply Hl].
Qed.

(** The maximum of an array is one of its elements, and no element is
    larger. *)
Lemma array_max_spec (a : list R) (top : R) :
  array_max a = ok top -> In top a /\ forall x, In x a -> x <= top.
Proof.
  destruct a as [|x0 l]; [discriminate|]. intro E. injection E as <-.
  destruct (fold_fmax_upper l x0) as [Hx Hl]. split.
  - apply (fold_fmax_invariant (fun m => In m (x0 :: l))).
    + now left.
    + intros y Hy. now right.
  - intros x [<-|Hx']; [exact Hx | now apply Hl].
Qed.

Lemma set_aspect_positive (a : R) : 0 < a -> set_aspect a = ok tt.
Proof.
  intro Ha. unfold set_aspect, isfinite, zero. simpl.
  unfold Exact.leb, Exact.eqb.
  destruct (Rle_dec a 0) as [Hle|_]; [lra|].
  destruct (Req_dec_T (a - a) 0) as [_|Hne]; [reflexivity | lra].
Qed.

Lemma set_aspect_nonpositive (a : R) :
  a <= 0 -> set_aspect a = raise (ValueError "aspect must be finite and positive").
Proof.
  intro Ha. unfold set_aspect, zero. simpl. unfold Exact.leb.
  destruct (Rle_dec a 0) as [_|Hgt]; [reflexivity | lra].
Qed.

(** What an image that [heatmap] returns is made of. *)
Lemma heatmap_inv (g : Grid) (img : Image R) :
  heatmap g = ok img ->
  exists top : R,
    array_max (concat (log_transform (counts g))) = ok top /\
    0 < IZR (width_px g) / 1000 /\
    img = mkImage (log_transform (counts g)) (IZR (width_px g) / 1000)
                  (-1) (top * (1 / 2)).
Proof.
  unfold heatmap.
  destruct (array_max (concat (log_transform (counts g)))) as [e|top];
    [discriminate|].
  cbn [rbind ok]. cbv zeta.
  change (fdiv (of_int (width_px g)) (of_int ypx))
    with (IZR (width_px g) / 1000).
  destruct (Rlt_le_dec 0 (IZR (width_px g) / 1000)) as [Hpos|Hle].
  - rewrite (set_aspect_positive Hpos). cbn [rbind ok].
    intro E. injection E as <-. exists top. repeat split. exact Hpos.
  - rewrite (set_aspect_nonpositive Hle). discriminate.
Qed.

Lemma heatmap_window (g : Grid) (img : Image R) :
  heatmap g = ok img ->
  img_data img = log_transform (counts g) /\
  img_vmin img = -1 /\ 0 <= img_vmax img.
Proof.
  intro Hh. destruct (heatmap_inv _ Hh) as (top & Htop & _ & ->).
  simpl. repeat split.
  destruct (array_max_spec _ Htop) as [Hin _].
  apply in_concat in Hin. destruct Hin as (row & Hrow & Hy).
  unfold log_transform in Hrow.
  apply in_map_iff in Hrow. destruct Hrow as (r & <- & _).
  apply in_map_iff in Hy. destruct Hy as (c & <- & _).
  pose proof (log1p_nonneg c) as Hc. unfold log1p in Hc.
  unfold one. simpl. lra.
Qed.

(** A grid with a cell and a positive width is rendered. *)
Lemma heatmap_returns (g : Grid) (c : nat) (cs : list nat)
      (rest : list (list nat)) :
  counts g = (c :: cs) :: rest -> (0 < width_px g)%Z ->
  exists img : Image R, heatmap g = ok img.
Proof.
  intros Hc Hw. unfold heatmap. rewrite Hc.
  cbn [log_transform map concat app]. unfold array_max.
  cbn [rbind ok]. cbv zeta.
  change (fdiv (of_int (width_px g)) (of_int ypx))
    with (IZR (width_px g) / 1000).
  rewrite set_aspect_positive.
  - eexists. reflexivity.
  - apply Rdiv_lt_0_compat; [apply IZR_lt; exact Hw | lra].
Qed.

(** The cells of the logarithmic grid. *)
Lemma in_log_grid (a : list (list nat)) (x : R) :
  In x (concat (log_transform a)) <->
  exists i j, (i < length a)%nat /\ (j < length (nth i a []))%nat /\
              x = log1p (count_at a i j).
Proof.
  unfold log_transform, count_at. split.
  - intro Hin. apply in_concat in Hin. destruct Hin as (lrow & Hrow & Hx).
    apply In_nth_error in Hrow. destruct Hrow as [i Hi].
    rewrite nth_error_map in Hi.
    destruct (nth_error a i) as [row|] eqn:Hrow; [|discriminate].
    injection Hi as <-.
    apply In_nth_error in Hx. destruct Hx as [j Hj].
    rewrite nth_error_map in Hj.
    destruct (nth_error row j) as [c|] eqn:Hc; [|discriminate].
    injection Hj as <-.
    exists i, j.
    assert (Hi : (i < length a)%nat) by (apply nth_error_Some; congruence).
    rewrite (nth_error_nth _ _ [] Hrow).
    assert (Hj : (j < length row)%nat) by (apply nth_error_Some; congruence).
    rewrite (nth_error_nth _ _ 0%nat Hc). auto.
  - intros (i & j & Hi & Hj & ->).
    apply in_concat. exists (map (fun c => flog (fadd (of_int (Z.of_nat c)) one)) (nth i a [])).
    split.
    + apply in_map. now apply nth_In.
    + apply (in_map log1p). now apply nth_In.
Qed.

Lemma same_shape_rows (a b : list (list nat)) :
  same_shape a b ->
  length a = length b /\
  forall i, length (nth i a []) = length (nth i b []).
Proof.
  unfold same_shape. intro Hs. split.
  - rewrite <- (length_map (@length nat) a), Hs. apply length_map.
  - intro i.
    change (length (nth i a [])) with ((@length nat) (nth i a [])).
    rewrite <- (map_nth (@length nat) a [] i), Hs.
    apply (map_nth (@length nat)).
Qed.

(** A grid that dominates another of its shape has the larger maximum. *)
Lemma top_monotone (a b : list (list nat)) (ta tb : R) :
  same_shape a b -> dominates a b ->
  array_max (concat (log_transform a)) = ok ta ->
  array_max (concat (log_transform b)) = ok tb ->
  tb <= ta.
Proof.
  intros Hs Hd Ha Hb.
  destruct (array_max_spec _ Hb) as [Hin _].
  destruct (array_max_spec _ Ha) as [_ Hup].
  apply in_log_grid in Hin. destruct Hin as (i & j & Hi & Hj & ->).
  destruct (same_shape_rows Hs) as [Hlen Hrows].
  apply Rle_trans with (log1p (count_at a i j)).
  - apply log1p_le, Hd.
  - apply Hup. apply in_log_grid. exists i, j.
    rewrite Hlen, Hrows. auto.
Qed.

(** C8: the clipped logarithm is monotonic in the counts.  For grids A
    and B of the same shape with A >= B in every cell, each rendered in
    its own window (from -1 to half the largest logarithm of the grid),
    the window of A reaches at least as high as that of B, and the value
    of every cell, log(count + 1) clipped to the window, is for A at least
    what it is for B: on the inverted gray scale the cell of A is as dark
    or darker.  Stated in exact arithmetic. *)
Theorem log_render_monotone
        (ga gb : Grid) (imga imgb : Image R) :
  same_shape (counts ga) (counts gb) ->
  dominates (counts ga) (counts gb) ->
  heatmap ga = ok imga -> heatmap gb = ok imgb ->
  img_vmin imga = -1 /\ img_vmin imgb = -1 /\
  (exists i j, img_vmax imga = 1 / 2 * log1p (count_at (counts ga) i j)) /\
  (forall i j, 1 / 2 * log1p (count_at (counts ga) i j) <= img_vmax imga) /\
  img_vmax imgb <= img_vmax imga /\
  forall i j,
    cell imga i j = log1p (count_at (counts ga) i j) /\
    cell imgb i j = log1p (count_at (counts gb) i j) /\
    clamped imgb i j <= clamped imga i j.
Proof.
  intros Hs Hd Ha Hb.
  destruct (heatmap_inv _ Ha) as (ta & Hta & _ & ->).
  destruct (heatmap_inv _ Hb) as (tb & Htb & _ & ->).
  pose proof (top_monotone Hs Hd Hta Htb) as Htop.
  destruct (array_max_spec _ Hta) as [Hin Hup].
  assert (Hta0 : 0 <= ta).
  { apply in_log_grid in Hin. destruct Hin as (i & j & _ & _ & ->).
    apply log1p_nonneg. }
  assert (Htb0 : 0 <= tb).
  { destruct (array_max_spec _ Htb) as [Hinb _].
    apply in_log_grid in Hinb. destruct Hinb as (i & j & _ & _ & ->).
    apply log1p_nonneg. }
  cbn [img_vmin img_vmax].
  split; [reflexivity|]. split; [reflexivity|]. split.
  { apply in_log_grid in Hin. destruct Hin as (i & j & _ & _ & ->).
    exists i, j. lra. }
  split.
  { intros i j.
    destruct (Nat.lt_ge_cases i (length (counts ga))) as [Hi|Hi].
    - destruct (Nat.lt_ge_cases j (length (nth i (counts ga) [])))
        as [Hj|Hj].
      + assert (log1p (count_at (counts ga) i j) <= ta).
        { apply Hup. apply in_log_grid. exists i, j. auto. }
        lra.
      + unfold count_at. rewrite (nth_overflow (nth i (counts ga) [])) by exact Hj.
        rewrite log1p_0. lra.
    - unfold count_at. rewrite (nth_overflow (counts ga)) by exact Hi.
      destruct j; simpl; rewrite log1p_0; lra. }
  split; [lra|]. intros i j.
  split; [apply cell_log_transform|]. split; [apply cell_log_transform|].
  unfold clamped. cbn [img_vmin img_vmax]. rewrite !cell_log_transform.
  pose proof (log1p_le (Hd i j)) as Hle.
  pose proof (log1p_nonneg (count_at (counts gb) i j)) as Hb0.
  set (la := log1p (count_at (counts ga) i j)) in *.
  set (lb := log1p (count_at (counts gb) i j)) in *.
  clearbody la lb. simpl. unfold Exact.ltb.
  repeat match goal with
         | |- context [Rlt_dec ?x ?y] => destruct (Rlt_dec x y)
         end; lra.
Qed.

End Rendering.

(** ** The orchestrator *)

Section OrchestratorFacts.

Context {F : Type}.

Variable process_tree_ : string -> string -> M (F := F) unit.

Lemma ran_length tasks w results w' :
  ran process_tree_ tasks w results w' -> length results = length tasks.
Proof. induction 1; simpl; congruence. Qed.

Lemma wrapper_outcome (file out : string) (w : World F) :
  process_file_wrapper process_tree_ (file, out) w
  = match process_tree_ file out w with
    | (inr _, w1) => (ok true, w1)
    | (inl e, w1) => (ok false, append_log w1 (ErrorProcessing file e))
    end.
Proof.
  unfold process_file_wrapper, try_except, bind, ret, logging.
  destruct (process_tree_ file out w) as [[e|[]] w1]; reflexivity.
Qed.

Lemma pool_map_ran (tasks : list task) (w : World F) :
  exists results w',
    pool_map (process_file_wrapper process_tree_) tasks w = (ok results, w')
    /\ ran process_tree_ tasks w results w'.
Proof.
  revert w. induction tasks as [|[file out] tasks IH]; intro w.
  - exists [], w. split; [reflexivity | constructor].
  - cbn [pool_map]. unfold bind at 1. rewrite wrapper_outcome.
    destruct (process_tree_ file out w) as [[e|[]] w1] eqn:Hrun.
    + destruct (IH (append_log w1 (ErrorProcessing file e)))
        as (results & w' & Hmap & Hran).
      exists (false :: results), w'. unfold bind. rewrite Hmap. split.
      * reflexivity.
      * eapply ran_failure; eassumption.
    + destruct (IH w1) as (results & w' & Hmap & Hran).
      exists (true :: results), w'. unfold bind. rewrite Hmap. split.
      * reflexivity.
      * eapply ran_success; eassumption.
Qed.

Lemma species_tasks_files (env : Env F) (output : string)
      (subdirs : list Folder) :
  map fst
      (flat_map
         (fun species_folder =>
            map (fun file =>
                   (file, path_child env output (folder_name species_folder)))
                (folder_las species_folder ++ folder_laz species_folder))
         subdirs)
  = flat_map (fun d => folder_las d ++ folder_laz d) subdirs.
Proof.
  induction subdirs as [|d l IHl]; simpl; [reflexivity|].
  rewrite map_app, map_map, IHl. simpl. now rewrite map_id.
Qed.

Lemma species_tasks_length (env : Env F) (output : string)
      (subdirs : list Folder) :
  length
    (flat_map
       (fun species_folder =>
          map (fun file =>
                 (file, path_child env output (folder_name species_folder)))
              (folder_las species_folder ++ folder_laz species_folder))
       subdirs)
  = length (flat_map (fun d => folder_las d ++ folder_laz d) subdirs).
Proof.
  rewrite <- (species_tasks_files env output subdirs). now rewrite length_map.
Qed.

(** The world after the discovery: only the flat search logs. *)
Lemma collect_tasks_outcome (env : Env F) (input output : string)
      (subdirs : list Folder) (las laz : list string) (w : World F) :
  match discovered (Directory subdirs las laz) with
  | [] =>
      exists (e : exn) (w' : World F),
      collect_tasks env input output subdirs las laz w = (raise e, w')
      /\ not_found_style e = true
      /\ (w' = w \/
          w' = append_log (append_log w (NoSubdirectories input))
                          LookingInInputDirectory)
  | _ :: _ =>
      exists (t : task) (tasks : list task) (w' : World F),
      collect_tasks env input output subdirs las laz w
      = (ok (t :: tasks), w')
  end.
Proof.
  destruct subdirs as [|d subdirs].
  - simpl. destruct (las ++ laz)%list as [|f files] eqn:Hfiles.
    + eexists _, _. unfold collect_tasks, bind, logging, throw. simpl.
      rewrite Hfiles. simpl. repeat split. now right.
    + eexists _, _, _. unfold collect_tasks, bind, logging, ret. simpl.
      rewrite Hfiles. simpl. reflexivity.
  - cbv beta iota zeta delta [discovered].
    pose proof (species_tasks_length env output (d :: subdirs)) as Hlen.
    unfold collect_tasks, bind, ret, throw.
    destruct (flat_map (fun d0 => folder_las d0 ++ folder_laz d0)
                       (d :: subdirs))%list as [|f files];
      match goal with
      | |- context [flat_map ?g (d :: subdirs)] =>
          destruct (flat_map g (d :: subdirs)) as [|t tasks]
      end; try discriminate.
    + eexists _, _. repeat split. now left.
    + eexists _, _, _. reflexivity.
Qed.

(** What [collect_tasks] returns and writes. *)
Lemma collect_tasks_returns (env : Env F) (input output : string)
      (subdirs : list Folder) (las laz : list string) (w w' : World F)
      (tasks : list task) :
  collect_tasks env input output subdirs las laz w = (ok tasks, w') ->
  tasks <> [] /\
  tasks = match subdirs with
          | [] => map (fun file => (file, path_str env output)) (las ++ laz)
          | _ :: _ =>
              flat_map
                (fun d =>
                   map (fun file =>
                          (file, path_child env output (folder_name d)))
                       (folder_las d ++ folder_laz d))
                subdirs
          end /\
  w' = match subdirs with
       | [] => append_log (append_log w (NoSubdirectories input))
                          LookingInInputDirectory
       | _ :: _ => w
       end.
Proof.
  unfold collect_tasks, bind, logging, ret, throw.
  destruct subdirs as [|d subdirs].
  - destruct (las ++ laz)%list as [|f files]; [discriminate|].
    cbn [map]. intro E. injection E as <- <-.
    split; [discriminate|]. split; reflexivity.
  - match goal with
    | |- context [flat_map ?g (d :: subdirs)] =>
        destruct (flat_map g (d :: subdirs)) as [|t ts] eqn:Hts
    end; [discriminate|].
    intro E. injection E as <- <-.
    split; [discriminate|]. split; reflexivity.
Qed.

Lemma collect_tasks_files (env : Env F) (input output : string)
      (subdirs : list Folder) (las laz : list string) (w w' : World F)
      (tasks : list task) :
  collect_tasks env input output subdirs las laz w = (ok tasks, w') ->
  map fst tasks = discovered (Directory subdirs las laz).
Proof.
  intro Hc. destruct (collect_tasks_returns _ _ _ _ _ _ _ Hc) as (_ & -> & _).
  destruct subdirs as [|d subdirs].
  - simpl. rewrite map_map. simpl. apply map_id.
  - rewrite species_tasks_files. reflexivity.
Qed.

Lemma main_outcome (env : Env F) (input output : string)
      (n_workers : option Z) (w : World F) :
  match lookup env input with
  | Missing | NotDirectory =>
      exists e,
      main process_tree_ env input output n_workers w = (raise e, w)
      /\ not_found_style e = true
  | Directory subdirs las laz =>
      match collect_tasks env input output subdirs las laz w with
      | (inl e, wc) =>
          main process_tree_ env input output n_workers w = (raise e, wc)
      | (inr tasks, wc) =>
          let wf := append_log wc (Found (length tasks)
                                         (workers env n_workers)) in
          if (workers env n_workers <? 1)%Z then
            exists e,
            main process_tree_ env input output n_workers w = (raise e, wf)
            /\ not_found_style e = false
          else
            exists results w1,
            ran process_tree_ tasks wf results w1 /\
            main process_tree_ env input output n_workers w
            = (ok tt, append_log w1 (Completed (successes results)
                                               (length tasks)))
      end
  end.
Proof.
  unfold main. fold (workers env n_workers).
  destruct (lookup env input) as [| |subdirs las laz].
  - eexists. split; reflexivity.
  - eexists. split; reflexivity.
  - unfold bind, logging, Pool.
    destruct (collect_tasks env input output subdirs las laz w)
      as [[e|tasks] wc]; [reflexivity|].
    destruct (workers env n_workers <? 1)%Z.
    + eexists. split; reflexivity.
    + unfold ret at 1.
      destruct (pool_map_ran tasks
                  (append_log wc (Found (length tasks)
                                        (workers env n_workers))))
        as (results & w1 & Hmap & Hran).
      exists results, w1. split; [exact Hran|].
      rewrite Hmap. reflexivity.
Qed.

Lemma no_input_dec (k : path_kind) : {no_input k} + {~ no_input k}.
Proof.
  unfold no_input. destruct k as [| |subdirs las laz].
  - left. now left.
  - left. right. now left.
  - destruct (discovered (Directory subdirs las laz)) as [|f files].
    + left. right. now right.
    + right. intros [Hk|[Hk|Hk]]; discriminate.
Qed.

Lemma main_with_input (env : Env F) (input output : string)
      (n_workers : option Z) (w : World F) :
  ~ no_input (lookup env input) ->
  exists (t : task) (tasks : list task) (wc : World F),
    let wf := append_log wc (Found (length (t :: tasks))
                                   (workers env n_workers)) in
    if (workers env n_workers <? 1)%Z then
      exists e,
      main process_tree_ env input output n_workers w = (raise e, wf)
      /\ not_found_style e = false
    else
      exists results w1,
      ran process_tree_ (t :: tasks) wf results w1 /\
      main process_tree_ env input output n_workers w
      = (ok tt, append_log w1 (Completed (successes results)
                                         (length (t :: tasks)))).
Proof.
  intro Hin. pose proof (main_outcome env input output n_workers w) as Hm.
  unfold no_input in Hin.
  destruct (lookup env input) as [| |subdirs las laz]; [tauto | tauto |].
  pose proof (collect_tasks_outcome env input output subdirs las laz w) as Hc.
  destruct (discovered (Directory subdirs las laz)) as [|f files];
    [tauto|].
  destruct Hc as (t & tasks & wc & Hc). rewrite Hc in Hm.
  exists t, tasks, wc. exact Hm.
Qed.




(** On the tasks of the model the two wrappers agree. *)
Lemma wrapper_base_agrees (file out : string) (w : World F) :
  process_file_wrapper_base (as_base (process_tree_ file out)) file w
  = match process_file_wrapper process_tree_ (file, out) w with
    | (inl e, w1) => (inl (Derived e), w1)
    | (inr flag, w1) => (inr flag, w1)
    end.
Proof.
  rewrite wrapper_outcome. unfold process_file_wrapper_base, as_base.
  destruct (process_tree_ file out w) as [[e|[]] w1]; reflexivity.
Qed.

(** C6, as the code has it: [main] fails with a NotFound-style error
    before any task is run exactly when the input root does not exist,
    is not a directory, or holds no .las/.laz file (in its subdirectories
    when it has subdirectories, in itself otherwise).  In all other cases
    the tasks are run, provided the pool is asked for at least one
    worker. *)
Theorem main_not_found_iff
        (env : Env F) (input output : string) (n_workers : option Z)
        (w : World F) :
  (fails_not_found process_tree_ env input output n_workers w
   <-> no_input (lookup env input)) /\
  (~ no_input (lookup env input) ->
   (1 <= workers env n_workers)%Z ->
   starts_tasks process_tree_ env input output n_workers w).
Proof.
  split; [split|].
  - intros (e & w' & Hmain & Hnf & _).
    destruct (no_input_dec (lookup env input)) as [Hno|Hin]; [exact Hno|].
    exfalso.
    destruct (main_with_input env input output n_workers w Hin)
      as (t & tasks & wc & Hm).
    cbv zeta in Hm. destruct (workers env n_workers <? 1)%Z.
    + destruct Hm as (e' & Hm & Hnf'). rewrite Hm in Hmain.
      injection Hmain as <- _. congruence.
    + destruct Hm as (results & w1 & _ & Hm). rewrite Hm in Hmain.
      discriminate.
  - intro Hno. unfold fails_not_found.
    pose proof (main_outcome env input output n_workers w) as Hm.
    unfold no_input in Hno.
    destruct (lookup env input) as [| |subdirs las laz].
    + destruct Hm as (e & Hm & Hnf). exists e, w. auto.
    + destruct Hm as (e & Hm & Hnf). exists e, w. auto.
    + destruct Hno as [Hk|[Hk|Hk]]; try discriminate.
      pose proof (collect_tasks_outcome env input output subdirs las laz w)
        as Hc.
      rewrite Hk in Hc. destruct Hc as (e & w' & Hc & Hnf & Hw).
      rewrite Hc in Hm. exists e, w'. auto.
  - intros Hin Hn.
    destruct (main_with_input env input output n_workers w Hin)
      as (t & tasks & wc & Hm).
    cbv zeta in Hm.
    destruct (Z.ltb_spec (workers env n_workers) 1) as [Hlt|_]; [lia|].
    destruct Hm as (results & w1 & Hran & Hmain).
    eexists t, tasks, _, w1, results. split; [exact Hran | exact Hmain].
Qed.

End OrchestratorFacts.

(** ** Concrete runs *)

Section Runs.

Local Open Scope R_scope.
Local Open Scope string_scope.

Lemma flat_env_has_input (input : string) : ~ no_input (lookup flat_env input).
Proof. unfold no_input. simpl. intros [Hk|[Hk|Hk]]; discriminate. Qed.

(** C6 as stated fails: with files to process and a pool of zero workers
    ([python TreeProjection.py in out 0]) no task is run though the input
    is found; [Pool] raises [ValueError]. *)
Lemma zero_workers_start_no_task :
  ~ (forall (process_tree_ : string -> string -> M (F := R) unit)
            (env : Env R) (input output : string) (n_workers : option Z)
            (w : World R),
        ~ no_input (lookup env input) ->
        starts_tasks process_tree_ env input output n_workers w).
Proof.
  intro Hall.
  destruct (Hall flat_task flat_env "in" "out" (Some 0%Z) empty_world
                 (@flat_env_has_input "in"))
    as (t & tasks & w0 & w1 & results & _ & Hmain).
  discriminate Hmain.
Qed.

Example zero_workers_raise :
  fst (main flat_task flat_env "in" "out" (Some 0%Z) empty_world)
  = raise (ValueError "Number of processes must be at least 1").
Proof. reflexivity. Qed.


Lemma main_not_found_iff_witness :
  starts_tasks flat_task flat_env "in" "out" (Some 2%Z) empty_world.
Proof.
  apply (@main_not_found_iff R flat_task flat_env "in" "out" (Some 2%Z)
                             empty_world).
  - apply flat_env_has_input.
  - simpl. lia.
Defined.


Lemma find_highest_point_first_max_witness :
  exists (i : nat) (p : Point3 R),
    find_highest_point [mkPoint3 0 0 1; mkPoint3 1 0 2] = ok p /\
    nth_error [mkPoint3 0 0 1; mkPoint3 1 0 2] i = Some p /\
    (forall q, In q [mkPoint3 0 0 1; mkPoint3 1 0 2] -> pz q <= pz p) /\
    (forall j q, (j < i)%nat ->
                 nth_error [mkPoint3 0 0 1; mkPoint3 1 0 2] j = Some q ->
                 pz q < pz p).
Proof.
  apply (@find_highest_point_first_max [mkPoint3 0 0 1; mkPoint3 1 0 2]).
  discriminate.
Defined.

Lemma image_width_truncates_witness :
  let q := B64.div (B64.of_Z 1000) (B64.div (B64.of_Z 25) (B64.of_Z 3)) in
  ypx = 1000%Z /\
  ~ B64.special q /\
  (0 <= float_value q -> IZR 119 <= float_value q < IZR 119 + 1) /\
  (float_value q <= 0 -> IZR 119 - 1 < float_value q <= IZR 119).
Proof.
  apply (@image_width_truncates (B64.of_Z 3) (B64.of_Z 25) 119%Z).
  vm_compute. reflexivity.
Defined.

Lemma vertical_coordinate_fixed_witness :
  map snd (project_to_plane (shift [mkPoint3 1 2 3] (mkPoint3 1 2 0))
                            (fst (fst (get_plane 45)))
                            (snd (fst (get_plane 45))))
  = map pz (shift [mkPoint3 1 2 3] (mkPoint3 1 2 0)).
Proof.
  apply (@vertical_coordinate_fixed [mkPoint3 1 2 3] (mkPoint3 1 2 0) 45).
  reflexivity.
Defined.

Lemma log_render_monotone_witness :
  exists imga imgb : Image R,
    heatmap (mkGrid 1000 [[3; 1]]%nat) = ok imga /\
    heatmap (mkGrid 1000 [[2; 0]]%nat) = ok imgb /\
    img_vmax imgb <= img_vmax imga /\
    clamped imgb 0 1 <= clamped imga 0 1.
Proof.
  destruct (@heatmap_returns (mkGrid 1000 [[3; 1]]%nat) 3%nat [1%nat] []
                             eq_refl eq_refl) as [imga Ha].
  destruct (@heatmap_returns (mkGrid 1000 [[2; 0]]%nat) 2%nat [0%nat] []
                             eq_refl eq_refl) as [imgb Hb].
  exists imga, imgb. split; [exact Ha|]. split; [exact Hb|].
  destruct (@log_render_monotone
              (mkGrid 1000 [[3; 1]]%nat) (mkGrid 1000 [[2; 0]]%nat)
              imga imgb)
    as (_ & _ & _ & _ & Hv & Hc).
  - reflexivity.
  - intros [|i] [|[|j]]; unfold count_at; simpl; lia.
  - exact Ha.
  - exact Hb.
  - split; [exact Hv | apply Hc].
Defined.

End Runs.

(** ** Degenerate extents, on binary64 *)

Module B64Facts.

Import B64.



Lemma div_by_nan (x : float64) : div x S754_nan = S754_nan.
Proof. now destruct x. Qed.












End B64Facts.

(** ** A file with a degenerate projection *)

Lemma image_path_eqb_eq (p q : image_path) :
  image_path_eqb p q = true <-> p = q.
Proof.
  destruct p as [f1 s1 a1], q as [f2 s2 a2]. unfold image_path_eqb. simpl.
  rewrite !andb_true_iff, !String.eqb_eq, Z.eqb_eq. split.
  - intros [[-> ->] ->]. reflexivity.
  - intro E. injection E as -> -> ->. auto.
Qed.

Lemma image_path_eqb_neq (p q : image_path) :
  p <> q -> image_path_eqb p q = false.
Proof.
  intro Hne. destruct (image_path_eqb p q) eqn:E; [|reflexivity].
  apply image_path_eqb_eq in E. contradiction.
Qed.


Section LoopFacts.

Context {F : Type} `{Float F} `{Libm F}.

Variable env : Env F.

Lemma process_angle_unfold (file out : string) (shifted : list (Point3 F))
      (angle : Z) (w : World F) :
  process_angle env file out shifted angle w
  = match density_grid (projection_at shifted angle) with
    | inl e => (raise e, w)
    | inr g =>
        match heatmap g with
        | inl e => (raise e, w)
        | inr img => savefig env (mkImagePath out (stem env file) angle) img w
        end
    end.
Proof.
  unfold process_angle, projection_at, get_plane, bind, lift.
  destruct (density_grid _) as [e|g]; [reflexivity|].
  destruct (heatmap g) as [e|img]; reflexivity.
Qed.

(** Writing a file: the name holds the new image, the other names hold
    what they held, and no name is listed twice. *)
Lemma find_after_remove (p q : image_path)
      (l : list (image_path * Image F)) :
  p <> q ->
  find (fun f => image_path_eqb (fst f) q)
       (filter (fun f => negb (image_path_eqb (fst f) p)) l)
  = find (fun f => image_path_eqb (fst f) q) l.
Proof.
  intro Hne. induction l as [|f l IH]; [reflexivity|].
  cbn [filter find]. destruct (image_path_eqb (fst f) p) eqn:Hp.
  - apply image_path_eqb_eq in Hp. cbn [negb].
    rewrite Hp, (image_path_eqb_neq Hne). exact IH.
  - cbn [negb find]. now rewrite IH.
Qed.

Lemma savefig_outcome (p : image_path) (img : Image F) (w : World F) :
  (exists e, savefig env p img w = (raise e, w)) \/
  (exists w',
      savefig env p img w = (ok tt, w') /\
      folders w' = folders w /\ log w' = log w /\
      image_at w' p = Some img /\
      (forall q, q <> p -> image_at w' q = image_at w q) /\
      (NoDup (map fst (images w)) -> NoDup (map fst (images w')))).
Proof.
  unfold savefig. destruct (savefig_error env p img) as [e|].
  - left. now exists e.
  - right. eexists. split; [reflexivity|]. cbn [folders log images].
    split; [reflexivity|]. split; [reflexivity|]. split.
    + unfold image_at. cbn [images find fst snd].
      now rewrite (proj2 (image_path_eqb_eq p p) eq_refl).
    + split.
      * intros q Hq. unfold image_at. cbn [images find fst].
        rewrite (image_path_eqb_neq (fun E => Hq (eq_sym E))).
        now rewrite find_after_remove by congruence.
      * intro Hnd. cbn [map fst]. constructor.
        -- intro Hin. apply in_map_iff in Hin.
           destruct Hin as (f & Hf & Hin). apply filter_In in Hin.
           destruct Hin as [_ Hneg]. rewrite <- Hf in Hneg.
           rewrite (proj2 (image_path_eqb_eq (fst f) (fst f)) eq_refl) in Hneg.
           discriminate.
        -- clear -Hnd. induction (images w) as [|f l IH]; [constructor|].
           cbn [map] in Hnd. inversion Hnd as [|? ? Hnotin Hnd']; subst.
           cbn [filter]. destruct (negb (image_path_eqb (fst f) p)).
           ++ cbn [map]. constructor; [|now apply IH].
              intro Hin. apply Hnotin. apply in_map_iff in Hin.
              destruct Hin as (g & Hg & Hin). apply filter_In in Hin.
              apply in_map_iff. exists g. tauto.
           ++ now apply IH.
Qed.

(** A pass either raises and writes nothing, or returns and has written
    the image of its angle. *)
Lemma process_angle_outcome (file out : string) (shifted : list (Point3 F))
      (angle : Z) (w : World F) :
  (exists e, process_angle env file out shifted angle w = (raise e, w)) \/
  (exists w',
      process_angle env file out shifted angle w = (ok tt, w') /\
      folders w' = folders w /\ log w' = log w /\
      (exists img,
          image_at w' (mkImagePath out (stem env file) angle) = Some img) /\
      (forall q, q <> mkImagePath out (stem env file) angle ->
                 image_at w' q = image_at w q) /\
      (NoDup (map fst (images w)) -> NoDup (map fst (images w')))).
Proof.
  rewrite process_angle_unfold.
  destruct (density_grid _) as [e|g]; [left; now exists e|].
  destruct (heatmap g) as [e|img]; [left; now exists e|].
  destruct (savefig_outcome (mkImagePath out (stem env file) angle) img w)
    as [[e He]|(w' & Hs & Hf & Hl & Hp & Hq & Hnd)].
  - left. now exists e.
  - right. exists w'. repeat split; try assumption. now exists img.
Qed.

(** The loop over the angles passes a prefix of the angles: all of them
    when it returns, not all of them when it raises.  The image of each
    angle passed is on disk, every other file is what it was. *)
Lemma for_each_trace (file out : string) (shifted : list (Point3 F))
      (angles : list Z) (w w' : World F) (r : result unit) :
  for_each angles (process_angle env file out shifted) w = (r, w') ->
  exists passed rest : list Z,
    angles = (passed ++ rest)%list /\
    match r with
    | inr _ => rest = []
    | inl _ => rest <> []
    end /\
    folders w' = folders w /\ log w' = log w /\
    (forall b, In b passed ->
               exists img,
                 image_at w' (mkImagePath out (stem env file) b) = Some img) /\
    (forall q, (forall b, In b passed ->
                          q <> mkImagePath out (stem env file) b) ->
               image_at w' q = image_at w q) /\
    (NoDup (map fst (images w)) -> NoDup (map fst (images w'))) /\
    (forall b, In b passed ->
               exists wb wb',
                 process_angle env file out shifted b wb = (ok tt, wb')).
Proof.
  revert w. induction angles as [|a angles IH]; intros w Hloop.
  - injection Hloop as <- <-. exists [], []. repeat split; auto.
    + intros b [].
    + intros b [].
  - cbn [for_each] in Hloop. unfold bind in Hloop.
    destruct (process_angle_outcome file out shifted a w)
      as [[e He]|(w1 & Hrun & Hf1 & Hl1 & [img Hp1] & Hq1 & Hnd1)].
    + rewrite He in Hloop. injection Hloop as <- <-.
      exists [], (a :: angles). repeat split; auto.
      * discriminate.
      * intros b [].
      * intros b [].
    + rewrite Hrun in Hloop. apply IH in Hloop.
      destruct Hloop
        as (passed & rest & -> & Hr & Hf & Hl & Hp & Hq & Hnd & Hok).
      exists (a :: passed), rest.
      split; [reflexivity|]. split; [exact Hr|].
      split; [congruence|]. split; [congruence|]. split.
      { intros b [<-|Hb]; [|now apply Hp].
        destruct (in_dec Z.eq_dec a passed) as [Hin|Hnotin];
          [now apply Hp|].
        exists img. rewrite Hq; [exact Hp1|].
        intros b Hb E. injection E as E. congruence. }
      split.
      { intros q Hnot. rewrite Hq.
        - apply Hq1. apply Hnot. now left.
        - intros b Hb. apply Hnot. now right. }
      split; [auto|].
      intros b [<-|Hb]; [now exists w, w1 | now apply Hok].
Qed.

(** The trace of a task: what [process_tree] has done when it ends. *)
Lemma process_tree_trace (file out : string) (angles : list Z)
      (w w' : World F) (r : result unit) :
  process_tree env file out angles w = (r, w') ->
  exists passed rest : list Z,
    angles = (passed ++ rest)%list /\
    match r with
    | inr _ =>
        rest = [] /\ folders w' = out :: folders w /\
        log w' = (log w ++ [Processed file])%list
    | inl _ =>
        (angles <> [] -> rest <> []) /\
        (folders w' = folders w \/ folders w' = out :: folders w) /\
        log w' = log w
    end /\
    (forall b, In b passed ->
               exists img,
                 image_at w' (mkImagePath out (stem env file) b) = Some img) /\
    (forall q, (forall b, In b passed ->
                          q <> mkImagePath out (stem env file) b) ->
               image_at w' q = image_at w q) /\
    (NoDup (map fst (images w)) -> NoDup (map fst (images w'))) /\
    (forall points o b,
        read_las env file = ok points ->
        offset (las2numpy points) = ok o ->
        In b passed ->
        exists wb wb',
          process_angle env file out (shift (las2numpy points) o) b wb
          = (ok tt, wb')).
Proof.
  unfold process_tree, bind, lift, mkdir, logging.
  assert (Hnone : forall (e : exn) (w0 : World F),
             images w0 = images w -> log w0 = log w ->
             (folders w0 = folders w \/ folders w0 = out :: folders w) ->
             exists passed rest : list Z,
               angles = (passed ++ rest)%list /\
               ((angles <> [] -> rest <> []) /\
                (folders w0 = folders w \/ folders w0 = out :: folders w) /\
                log w0 = log w) /\
               (forall b, In b passed ->
                          exists img,
                            image_at w0 (mkImagePath out (stem env file) b)
                            = Some img) /\
               (forall q, (forall b, In b passed ->
                                     q <> mkImagePath out (stem env file) b) ->
                          image_at w0 q = image_at w q) /\
               (NoDup (map fst (images w)) -> NoDup (map fst (images w0))) /\
               (forall points o b,
                   read_las env file = ok points ->
                   offset (las2numpy points) = ok o ->
                   In b passed ->
                   exists wb wb',
                     process_angle env file out (shift (las2numpy points) o)
                                   b wb
                     = (ok tt, wb'))).
  { intros e w0 Hi Hl Hf. exists [], angles. repeat split; auto.
    - intros b [].
    - intros q _. unfold image_at. now rewrite Hi.
    - now rewrite Hi.
    - intros points o b _ _ []. }
  destruct (mkdir_error env out) as [e0|].
  { intro E. injection E as <- <-. apply (Hnone e0); auto. }
  destruct (read_las env file) as [e0|las] eqn:Hr0.
  { intro E. injection E as <- <-. apply (Hnone e0); simpl; auto. }
  destruct (offset (las2numpy las)) as [e0|o] eqn:Ho0.
  { intro E. injection E as <- <-. apply (Hnone e0); simpl; auto. }
  clear Hnone.
  destruct (for_each angles _ _) as [[e0|[]] w1] eqn:Hloop.
  - intro E. injection E as <- <-.
    destruct (for_each_trace _ _ _ _ _ Hloop)
      as (passed & rest & Ha & Hr & Hf & Hl & Hp & Hq & Hnd & Hok).
    cbn [images folders log] in *.
    exists passed, rest. split; [exact Ha|]. split.
    { split; [auto|]. split; [now right | exact Hl]. }
    split; [exact Hp|]. split; [exact Hq|]. split; [exact Hnd|].
    intros points o' b Hread Hoff Hb.
    unfold ok in Hread. injection Hread as <-.
    rewrite Ho0 in Hoff. unfold ok in Hoff. injection Hoff as <-.
    now apply Hok.
  - intro E. injection E as <- <-.
    destruct (for_each_trace _ _ _ _ _ Hloop)
      as (passed & rest & Ha & Hr & Hf & Hl & Hp & Hq & Hnd & Hok).
    cbn [images folders log append_log] in *.
    exists passed, rest. split; [exact Ha|]. split.
    { split; [exact Hr|]. split; [exact Hf | now rewrite Hl]. }
    split; [exact Hp|]. split; [exact Hq|]. split; [exact Hnd|].
    intros points o' b Hread Hoff Hb.
    unfold ok in Hread. injection Hread as <-.
    rewrite Ho0 in Hoff. unfold ok in Hoff. injection Hoff as <-.
    now apply Hok.
Qed.

End LoopFacts.

Section DegenerateFile.

Context {libm : Libm B64.float64}.

Variable env : Env B64.float64.



End DegenerateFile.

(** ** The histogram in exact arithmetic *)

Section ExactHistogram.

Local Open Scope R_scope.

Lemma fmin_exact (a b : R) : fmin a b = Rmin a b.
Proof.
  unfold fmin, Rmin. simpl. unfold Exact.ltb.
  destruct (Rlt_dec b a), (Rle_dec a b); lra.
Qed.

Lemma fold_fmin_lower (l : list R) (x : R) :
  fold_left fmin l x <= x /\ forall y, In y l -> fold_left fmin l x <= y.
Proof.
  revert x. induction l as [|a l IH]; intro x; simpl.
  - split; [lra | tauto].
  - rewrite fmin_exact. destruct (IH (Rmin x a)) as [Hx Hl].
    pose proof (Rmin_l x a). pose proof (Rmin_r x a).
    split; [lra|]. intros y [<-|Hy]; [lra | now apply Hl].
Qed.

(** The extent encloses every element. *)
Lemma extent_encloses (a : list R) (ext : R * R) :
  extent a = ok ext -> forall x, In x a -> fst ext <= x <= snd ext.
Proof.
  destruct a as [|x0 a]; [discriminate|].
  unfold extent. simpl. intro E. injection E as <-. simpl.
  destruct (fold_fmin_lower a x0) as [Hlo Hlo'].
  destruct (fold_fmax_upper a x0) as [Hhi Hhi'].
  intros x [<-|Hx]; split; auto.
Qed.

Lemma ceil_spec (r : R) : IZR (Exact.ceil r) - 1 < r <= IZR (Exact.ceil r).
Proof.
  unfold Exact.ceil. rewrite opp_IZR.
  destruct (ExactFacts.floor_spec (- r)). lra.
Qed.

Lemma arange_exact (start stop step : R) :
  0 < step -> step < stop - start ->
  (Exact.ceil ((stop - start) / step) <= B64.intp_max)%Z ->
  exists n : nat,
    (2 <= n)%nat /\
    stop - start <= INR n * step /\
    arange start stop step = ok (edges_of start step n).
Proof.
  intros Hstep Hlen Hfit.
  set (c := Exact.ceil ((stop - start) / step)) in *.
  destruct (ceil_spec ((stop - start) / step)) as [_ Hc]. fold c in Hc.
  assert (Hq : 1 < (stop - start) / step).
  { apply Rmult_lt_reg_r with step; [exact Hstep|].
    unfold Rdiv. rewrite Rmult_assoc, Rinv_l by lra. lra. }
  assert (Hc2 : (2 <= c)%Z).
  { assert (1 < c)%Z by (apply lt_IZR; lra). lia. }
  exists (Z.to_nat c). split; [lia|]. split.
  - rewrite INR_IZR_INZ, Z2Nat.id by lia.
    apply Rmult_le_compat_r with (r := step) in Hc; [|lra].
    unfold Rdiv in Hc. rewrite Rmult_assoc, Rinv_l in Hc by lra. lra.
  - unfold arange. simpl. unfold Exact.ceil_to_intp. fold c.
    assert (Hlo : (B64.intp_min <=? c)%Z = true).
    { apply Z.leb_le. unfold B64.intp_min. lia. }
    assert (Hhi : (c <=? B64.intp_max)%Z = true) by now apply Z.leb_le.
    rewrite Hlo, Hhi. simpl.
    destruct (Z.to_nat c) as [|[|k]] eqn:Hk; [lia | lia |].
    unfold ok. f_equal. unfold edges_of, arange_fill. simpl.
    f_equal; [lra|]. f_equal; [lra|].
    replace (k - 0)%nat with k by lia.
    apply map_ext. intro i. lra.
Qed.

Lemma increasing_cons (x y : R) (l : list R) :
  increasing (x :: y :: l) = (negb (fltb y x) && increasing (y :: l))%bool.
Proof. reflexivity. Qed.

Lemma edges_increasing (start step : R) (n a : nat) :
  0 < step ->
  increasing (map (fun i => start + IZR (Z.of_nat i) * step) (seq a n)) = true.
Proof.
  intro Hstep. revert a. induction n as [|n IH]; intro a; [reflexivity|].
  destruct n as [|n]; [reflexivity|].
  specialize (IH (S a)). cbn [seq map] in IH |- *.
  rewrite increasing_cons, IH, andb_true_r.
  apply negb_true_iff. apply ExactFacts.ltb_false.
  rewrite Nat2Z.inj_succ, succ_IZR. nra.
Qed.

(** A coordinate between the first and the last edge falls in a proper
    bin. *)
Lemma bin_index_inside (start step x : R) (m : nat) :
  0 < step -> (1 <= m)%nat ->
  start <= x <= start + INR m * step ->
  (1 <= bin_index (edges_of start step (S m)) x <= m)%nat.
Proof.
  intros Hstep Hm [Hlo Hhi].
  set (f := fun i : nat => start + IZR (Z.of_nat i) * step).
  assert (HE : edges_of start step (S m) = map f (seq 0 m) ++ [f m]).
  { unfold edges_of. rewrite seq_S, map_app. reflexivity. }
  assert (Hcount : (1 <= length (filter (fun e => fleb e x) (map f (seq 0 m)))
                    <= m)%nat).
  { split.
    - destruct m as [|m]; [lia|]. cbn [seq map filter].
      replace (fleb (f 0%nat) x) with true; [simpl; lia|].
      symmetry. apply ExactFacts.leb_true. unfold f. simpl. lra.
    - etransitivity; [apply filter_length_le|].
      now rewrite length_map, length_seq. }
  unfold bin_index, searchsorted_right. rewrite HE, map_app.
  change (map Some [f m]) with [Some (f m)]. rewrite last_last.
  rewrite filter_app, length_app. cbn [filter].
  assert (Hfm : f m = start + INR m * step)
    by (unfold f; now rewrite INR_IZR_INZ).
  clearbody f.
  destruct (Req_dec_T x (f m)) as [Heq|Hne].
  - replace (feqb x (f m)) with true
      by (simpl; unfold Exact.eqb; destruct (Req_dec_T x (f m)); tauto).
    replace (fleb (f m) x) with true
      by (symmetry; apply ExactFacts.leb_true; rewrite Heq; apply Rle_refl).
    cbn [length]. lia.
  - replace (feqb x (f m)) with false
      by (simpl; unfold Exact.eqb; destruct (Req_dec_T x (f m)); tauto).
    replace (fleb (f m) x) with false.
    2:{ symmetry. apply ExactFacts.leb_false. rewrite <- Hfm in Hhi.
        destruct Hhi as [Hlt|Heq]; [exact Hlt | contradiction]. }
    cbn [length]. lia.
Qed.

(** Counting: the cells of the grid partition the points that fall in
    proper bins. *)
Lemma grid_total_list_sum (g : list (list nat)) :
  grid_total g = list_sum (map list_sum g).
Proof.
  unfold grid_total. induction g as [|row g IH]; [reflexivity|].
  cbn [fold_right map]. rewrite IH. reflexivity.
Qed.

Lemma list_sum_map_add (A : Type) (f g : A -> nat) (l : list A) :
  list_sum (map (fun x => f x + g x)%nat l)
  = (list_sum (map f l) + list_sum (map g l))%nat.
Proof. induction l as [|a l IH]; simpl; [reflexivity | lia]. Qed.

Lemma list_sum_map_zero (A : Type) (l : list A) :
  list_sum (map (fun _ => 0%nat) l) = 0%nat.
Proof. induction l as [|a l IH]; simpl; [reflexivity | exact IH]. Qed.

Lemma list_sum_cons (x : nat) (l : list nat) :
  list_sum (x :: l) = (x + list_sum l)%nat.
Proof. reflexivity. Qed.

Lemma list_sum_indicator (k a n : nat) :
  list_sum (map (fun i => if Nat.eqb k (S i) then 1 else 0)%nat (seq a n))
  = if ((a <? k) && (k <=? a + n))%nat then 1%nat else 0%nat.
Proof.
  revert a. induction n as [|n IH]; intro a.
  - simpl. destruct (Nat.ltb_spec a k), (Nat.leb_spec k (a + 0)); simpl; lia.
  - cbn [seq map]. rewrite list_sum_cons, IH.
    destruct (Nat.eqb_spec k (S a)), (Nat.ltb_spec (S a) k),
      (Nat.leb_spec k (S a + n)), (Nat.ltb_spec a k),
      (Nat.leb_spec k (a + S n)); simpl; lia.
Qed.

Lemma grid_total_partition (P : Type) (bx by_ : P -> nat) (rows cols : nat)
      (points : list P) :
  (forall p, In p points ->
             (1 <= bx p <= rows)%nat /\ (1 <= by_ p <= cols)%nat) ->
  grid_total
    (map (fun j =>
            map (fun i =>
                   length (filter (fun p => Nat.eqb (bx p) (S i)
                                            && Nat.eqb (by_ p) (S j)) points))
                (seq 0 rows))
         (seq 0 cols))
  = length points.
Proof.
  rewrite grid_total_list_sum, map_map.
  induction points as [|p points IH]; intro Hin.
  - simpl. rewrite (map_ext _ (fun _ => 0%nat)).
    + apply list_sum_map_zero.
    + intro j. apply list_sum_map_zero.
  - destruct (Hin p (or_introl eq_refl)) as [Hx Hy].
    rewrite (map_ext _
               (fun j =>
                  (list_sum (map (fun i =>
                                    if Nat.eqb (bx p) (S i)
                                       && Nat.eqb (by_ p) (S j)
                                    then 1 else 0) (seq 0 rows))
                   + list_sum (map (fun i =>
                                      length (filter
                                                (fun q => Nat.eqb (bx q) (S i)
                                                          && Nat.eqb (by_ q) (S j))
                                                points)) (seq 0 rows)))%nat)).
    + rewrite list_sum_map_add, IH by (intros q Hq; apply Hin; now right).
      rewrite (map_ext _ (fun j => if Nat.eqb (by_ p) (S j) then 1 else 0)%nat).
      * rewrite list_sum_indicator.
        destruct (Nat.ltb_spec 0 (by_ p)), (Nat.leb_spec (by_ p) (0 + cols));
          simpl; lia.
      * intro j. destruct (Nat.eqb (by_ p) (S j)).
        -- rewrite (map_ext _ (fun i => if Nat.eqb (bx p) (S i)
                                        then 1 else 0)%nat)
             by (intro i; now rewrite andb_true_r).
           rewrite list_sum_indicator.
           destruct (Nat.ltb_spec 0 (bx p)), (Nat.leb_spec (bx p) (0 + rows));
             simpl; lia.
        -- rewrite (map_ext _ (fun _ => 0%nat))
             by (intro i; now rewrite andb_false_r).
           apply list_sum_map_zero.
    + intro j. rewrite <- list_sum_map_add. f_equal. apply map_ext. intro i.
      cbn [filter].
      destruct (Nat.eqb (bx p) (S i) && Nat.eqb (by_ p) (S j)); reflexivity.
Qed.

Lemma nth_map_seq (A : Type) (f : nat -> A) (n i : nat) (d : A) :
  (i < n)%nat -> nth i (map f (seq 0 n)) d = f i.
Proof.
  intro Hi. rewrite (nth_indep _ d (f 0%nat))
    by now rewrite length_map, length_seq.
  rewrite map_nth, seq_nth by exact Hi. reflexivity.
Qed.

Lemma transpose_cells (c : nat -> nat -> nat) (rows cols : nat) :
  transpose rows cols
            (map (fun i => map (fun j => c i j) (seq 0 cols)) (seq 0 rows))
  = map (fun j => map (fun i => c i j) (seq 0 rows)) (seq 0 cols).
Proof.
  unfold transpose. apply map_ext_in. intros j Hj. apply in_seq in Hj.
  apply map_ext_in. intros i Hi. apply in_seq in Hi.
  rewrite (nth_map_seq (fun i0 => map (fun j0 => c i0 j0) (seq 0 cols)))
    by lia.
  apply nth_map_seq. lia.
Qed.

Lemma edges_of_increasing (start step : R) (n : nat) :
  0 < step -> increasing (edges_of start step n) = true.
Proof. intro Hstep. now apply edges_increasing. Qed.

Lemma edges_of_length (start step : R) (n : nat) :
  length (edges_of start step n) = n.
Proof. unfold edges_of. now rewrite length_map, length_seq. Qed.

(** The edges of one axis, in exact arithmetic: at least two, and every
    coordinate of the extent falls in a proper bin. *)
Lemma bin_edges_exact (ext : R * R) (pd : R) :
  0 < pd -> fst ext < snd ext ->
  (Exact.ceil ((snd ext + pd - fst ext) / pd) <= B64.intp_max)%Z ->
  exists m : nat,
    (1 <= m)%nat /\
    bin_edges ext pd = ok (edges_of (fst ext) pd (S m)) /\
    forall x, fst ext <= x <= snd ext ->
              (1 <= bin_index (edges_of (fst ext) pd (S m)) x <= m)%nat.
Proof.
  intros Hpd Hext Hfit.
  destruct (@arange_exact (fst ext) (snd ext + pd) pd Hpd) as (n & Hn & Hlast & Har);
    [lra | exact Hfit |].
  destruct n as [|m]; [lia|]. exists m. split; [lia|]. split; [exact Har|].
  intros x Hx. apply bin_index_inside; [exact Hpd | lia |].
  rewrite S_INR in Hlast. lra.
Qed.

(** X12: In exact arithmetic the grid covers the extent: whenever both ranges
    are positive (and the numbers of edges fit an index) the counts of the
    cells sum to the number of points. *)
Theorem histogram_total_exact (projected : list (R * R)) (xext yext : R * R) :
  extent (map fst projected) = ok xext ->
  extent (map snd projected) = ok yext ->
  0 < xrange xext -> 0 < xrange yext ->
  let pd := point_density (xrange xext) (xrange yext) (length projected) in
  (Exact.ceil ((snd xext + pd - fst xext) / pd) <= B64.intp_max)%Z ->
  (Exact.ceil ((snd yext + pd - fst yext) / pd) <= B64.intp_max)%Z ->
  exists g : Grid,
    density_grid projected = ok g /\
    grid_total (counts g) = length projected.
Proof.
  intros Hx Hy Hxl Hyl pd Hfx Hfy.
  assert (Hn : (1 <= length projected)%nat).
  { destruct projected; [discriminate | simpl; lia]. }
  assert (Hpd : 0 < pd).
  { unfold pd, point_density. simpl. apply sqrt_lt_R0.
    apply Rdiv_lt_0_compat; [now apply Rmult_lt_0_compat|].
    apply IZR_lt. lia. }
  unfold xrange in Hxl, Hyl. simpl in Hxl, Hyl.
  destruct (bin_edges_exact xext Hpd) as (mx & Hmx & Hxb & Hxin);
    [lra | exact Hfx |].
  destruct (bin_edges_exact yext Hpd) as (my & Hmy & Hyb & Hyin);
    [lra | exact Hfy |].
  unfold density_grid. rewrite Hx, Hy. cbn [rbind ok]. cbv zeta.
  rewrite image_width_floor by (unfold xrange; simpl; lra).
  cbn [rbind ok]. fold pd. unfold ok in Hxb, Hyb. rewrite Hxb, Hyb.
  cbn [rbind]. unfold hist2d, histogram2d.
  rewrite !edges_of_increasing by exact Hpd.
  cbn [negb rbind ok]. rewrite !edges_of_length.
  eexists. split; [reflexivity|]. cbn [counts].
  replace (S mx - 1)%nat with mx by lia.
  replace (S my - 1)%nat with my by lia.
  rewrite (transpose_cells
             (fun i j => count_in projected (edges_of (fst xext) pd (S mx))
                                  (edges_of (fst yext) pd (S my)) (S i) (S j))).
  unfold count_in.
  apply (grid_total_partition
           (fun p => bin_index (edges_of (fst xext) pd (S mx)) (fst p))
           (fun p => bin_index (edges_of (fst yext) pd (S my)) (snd p))).
  intros p Hp. split.
  - apply Hxin. apply (extent_encloses _ Hx). now apply in_map.
  - apply Hyin. apply (extent_encloses _ Hy). now apply in_map.
Qed.

End ExactHistogram.

(** ** Concrete runs on binary64 *)

Section Binary64Runs.

Local Open Scope string_scope.



Example tilted_cloud_run :
  let '(r, w) := process_tree (H0 := libm_table) tilted_env "tree1.las" "out"
                              default_angles (mkWorld [] [] []) in
  r = raise (ValueError "arange: cannot compute length") /\
  map (fun i => angle_of (fst i)) (images w) = [45; 0]%Z.
Proof. vm_compute. split; reflexivity. Qed.

(** C1 on binary64: the nine points of [skewed_cloud] project at angle 0 to
    points whose ranges are both 31; the bin width is
    sqrt(31 * 31 / 9) = 10.333333333333332, [np.arange] makes four edges
    per axis and the last of them, 0 + 3 * 10.333333333333332, rounds to
    30.999999999999996.  The points (31, 0) and (0, 31) lie outside the
    grid and the counts sum to 7 for 9 points. *)
Theorem histogram_drops_extreme_point :
  offset skewed_cloud = ok (b64_point 0 0 0) /\
  projection_at (H0 := libm_table) (shift skewed_cloud (b64_point 0 0 0)) 0
  = skewed_points /\
  length skewed_points = 9%nat /\
  (exists xbins last_edge,
      bin_edges (B64.of_Z 0, B64.of_Z 31)
                (point_density (B64.of_Z 31) (B64.of_Z 31) 9) = ok xbins /\
      length xbins = 4%nat /\
      nth_error xbins 3 = Some last_edge /\
      SFltb last_edge (B64.of_Z 31) = true) /\
  exists g : Grid,
    density_grid skewed_points = ok g /\
    counts g = [[7; 0; 0]; [0; 0; 0]; [0; 0; 0]]%nat /\
    grid_total (counts g) = 7%nat.
Proof.
  split; [vm_compute; reflexivity|].
  split; [vm_compute; reflexivity|].
  split; [reflexivity|]. split.
  - eexists _, _. split; [vm_compute; reflexivity|].
    split; [reflexivity|]. split; [reflexivity|]. vm_compute. reflexivity.
  - eexists. split; [vm_compute; reflexivity|]. split; reflexivity.
Qed.

End Binary64Runs.

(** * Further properties of the script *)

(** ** Discovery of the files and the summary of [main] *)

Section Discovery.

Context {F : Type}.

Variable process_tree_ : string -> string -> M (F := F) unit.

(** X3: Discovery pairs every file it finds with its output folder: the
    output root, as [pathlib] writes it, for the files of a flat input
    directory; the child of the output root named after the species
    folder, as [pathlib] writes it, for a file found in a subdirectory.
    Files beside the subdirectories are not taken, the order is that of
    the discovery, and only the flat search writes to the log. *)
Theorem collect_tasks_pairs (env : Env F) (input output : string)
        (subdirs : list Folder) (las laz : list string) (w w' : World F)
        (tasks : list task) :
  collect_tasks env input output subdirs las laz w = (ok tasks, w') ->
  tasks = discovered_tasks env output (Directory subdirs las laz) /\
  map fst tasks = discovered (Directory subdirs las laz) /\
  (forall file out,
      In (file, out) tasks ->
      match subdirs with
      | [] => out = path_str env output /\ In file (las ++ laz)
      | _ :: _ =>
          exists d, In d subdirs /\
                    In file (folder_las d ++ folder_laz d) /\
                    out = path_child env output (folder_name d)
      end) /\
  folders w' = folders w /\ images w' = images w /\
  log w' = (log w ++ match subdirs with
                     | [] => [NoSubdirectories input; LookingInInputDirectory]
                     | _ :: _ => []
                     end)%list.
Proof.
  intro Hc. split.
  { destruct (collect_tasks_returns _ _ _ _ _ _ _ Hc) as (_ & -> & _).
    destruct subdirs; reflexivity. }
  split; [exact (collect_tasks_files _ _ _ _ _ _ _ Hc)|].
  destruct (collect_tasks_returns _ _ _ _ _ _ _ Hc) as (_ & -> & ->).
  destruct subdirs as [|d subdirs].
  - split.
    + intros file out Hin. apply in_map_iff in Hin.
      destruct Hin as (f & E & Hf). injection E as <- <-. auto.
    + simpl. rewrite <- app_assoc. auto.
  - split.
    + intros file out Hin. apply in_flat_map in Hin.
      destruct Hin as (d0 & Hd0 & Hin). apply in_map_iff in Hin.
      destruct Hin as (f & E & Hf). injection E as <- <-.
      exists d0. auto.
    + rewrite app_nil_r. auto.
Qed.

Lemma ran_successes_le tasks w results w' :
  ran process_tree_ tasks w results w' ->
  (successes results <= length tasks)%nat.
Proof.
  intro Hran. rewrite <- (ran_length Hran). apply filter_length_le.
Qed.

Lemma ran_all_return tasks w results w' :
  (forall file out w0, fst (process_tree_ file out w0) = ok tt) ->
  ran process_tree_ tasks w results w' ->
  successes results = length tasks.
Proof.
  intro Hall. induction 1 as [w|file out tasks w w1 w2 results Hrun Hran IH
                              |file out tasks w w1 w2 e results Hrun Hran IH].
  - reflexivity.
  - unfold successes in *. simpl. now rewrite IH.
  - specialize (Hall file out w). rewrite Hrun in Hall. discriminate.
Qed.

Lemma ran_all_raise tasks w results w' :
  (forall file out w0, raises (fst (process_tree_ file out w0))) ->
  ran process_tree_ tasks w results w' ->
  successes results = 0%nat.
Proof.
  intro Hall. induction 1 as [w|file out tasks w w1 w2 results Hrun Hran IH
                              |file out tasks w w1 w2 e results Hrun Hran IH].
  - reflexivity.
  - destruct (Hall file out w) as [e He]. rewrite Hrun in He. discriminate.
  - unfold successes in *. simpl. exact IH.
Qed.

(** X4: With input to process and a pool of at least one worker, [main]
    returns, and the two numbers of its summary are: second, the number
    of the files discovered; first, a number that is at most the second,
    equal to it when every task returns, and zero when every task
    raises.  A task that raises never makes [main] raise. *)
Theorem main_summary_counts
        (env : Env F) (input output : string) (n_workers : option Z)
        (w : World F) :
  ~ no_input (lookup env input) ->
  (1 <= workers env n_workers)%Z ->
  let n := length (discovered (lookup env input)) in
  exists (s : nat) (w1 : World F),
    main process_tree_ env input output n_workers w
    = (ok tt, append_log w1 (Completed s n)) /\
    (s <= n)%nat /\
    ((forall file out w0, fst (process_tree_ file out w0) = ok tt) -> s = n) /\
    ((forall file out w0, raises (fst (process_tree_ file out w0))) ->
     s = 0%nat).
Proof.
  intros Hin Hn n.
  pose proof (main_outcome process_tree_ env input output n_workers w) as Hm.
  unfold no_input in Hin. subst n.
  destruct (lookup env input) as [| |subdirs las laz]; [tauto | tauto |].
  destruct (collect_tasks env input output subdirs las laz w)
    as [[e|tasks] wc] eqn:Hc.
  - exfalso.
    pose proof (collect_tasks_outcome env input output subdirs las laz w) as Ho.
    destruct (discovered (Directory subdirs las laz)) as [|f files];
      [tauto|].
    destruct Ho as (t & ts & w' & Ho). rewrite Ho in Hc. discriminate.
  - cbv zeta in Hm.
    destruct (Z.ltb_spec (workers env n_workers) 1) as [Hlt|_]; [lia|].
    destruct Hm as (results & w1 & Hran & Hmain).
    rewrite <- (collect_tasks_files _ _ _ _ _ _ _ Hc), length_map.
    exists (successes results), w1. split; [exact Hmain|]. split.
    + exact (ran_successes_le Hran).
    + split; intro Hall.
      * exact (ran_all_return Hall Hran).
      * exact (ran_all_raise Hall Hran).
Qed.

Lemma main_without_input (env : Env F) (input output : string)
      (n_workers : option Z) (w : World F) :
  no_input (lookup env input) ->
  exists e w', main process_tree_ env input output n_workers w = (raise e, w').
Proof.
  intro Hno.
  pose proof (main_outcome process_tree_ env input output n_workers w) as Hm.
  unfold no_input in Hno.
  destruct (lookup env input) as [| |subdirs las laz].
  - destruct Hm as (e & Hm & _). now exists e, w.
  - destruct Hm as (e & Hm & _). now exists e, w.
  - destruct Hno as [Hk|[Hk|Hk]]; try discriminate.
    pose proof (collect_tasks_outcome env input output subdirs las laz w) as Hc.
    rewrite Hk in Hc. destruct Hc as (e & w' & Hc & _).
    rewrite Hc in Hm. now exists e, w'.
Qed.

Lemma main_returns_iff (env : Env F) (input output : string)
      (n_workers : option Z) (w : World F) :
  (exists w', main process_tree_ env input output n_workers w = (ok tt, w'))
  <-> ~ no_input (lookup env input) /\ (1 <= workers env n_workers)%Z.
Proof.
  split.
  - intros [w' Hmain].
    destruct (no_input_dec (lookup env input)) as [Hno|Hin].
    + destruct (main_without_input env input output n_workers w Hno)
        as (e & w0 & Hm).
      rewrite Hm in Hmain. discriminate.
    + split; [exact Hin|].
      destruct (main_with_input process_tree_ env input output n_workers w Hin)
        as (t & tasks & wc & Hm).
      cbv zeta in Hm.
      destruct (Z.ltb_spec (workers env n_workers) 1) as [Hlt|Hge];
        [|exact Hge].
      destruct Hm as (e & Hm & _). rewrite Hm in Hmain. discriminate.
  - intros [Hin Hn].
    destruct (main_with_input process_tree_ env input output n_workers w Hin)
      as (t & tasks & wc & Hm).
    cbv zeta in Hm.
    destruct (Z.ltb_spec (workers env n_workers) 1) as [Hlt|_]; [lia|].
    destruct Hm as (results & w1 & _ & Hmain). eexists. exact Hmain.
Qed.

End Discovery.

(** ** The command line *)

Section CommandLineFacts.

Context {F : Type}.

Variable process_tree_ : string -> string -> M (F := F) unit.

Variable parse_int : string -> result Z.

(** X1: With two paths and a worker count that is absent or converts, the
    script ends with status 0 exactly when there is input to process and
    the pool is asked for at least one worker, and with status 1
    otherwise: a task that fails does not change the exit status. *)
Theorem script_exit_status
        (env : Env F) (prog input output : string) (rest : list string)
        (n_workers : option Z) (w : World F) :
  parse_workers parse_int rest = ok n_workers ->
  let status :=
    status_code
      (fst (fst (script process_tree_ parse_int env
                        (prog :: input :: output :: rest) w))) in
  (status = 0%Z
   <-> ~ no_input (lookup env input) /\ (1 <= workers env n_workers)%Z) /\
  (status = 0%Z \/ status = 1%Z).
Proof.
  intros Hparse status. subst status. unfold script.
  unfold ok in Hparse. rewrite Hparse.
  pose proof (main_returns_iff process_tree_ env input output n_workers w)
    as Hiff.
  destruct (main process_tree_ env input output n_workers w)
    as [[e|[]] w'].
  - simpl. split; [|now right]. split; [discriminate|].
    intro Hin. apply Hiff in Hin. destruct Hin as [w0 Hw0]. discriminate.
  - simpl. split; [|now left]. split; [|reflexivity].
    intros _. apply Hiff. now exists w'.
Qed.

(** X2: With fewer than two paths, or with a worker count that does not
    convert to an integer, the script ends with status 1 and [main] is
    not run: nothing is written to the disk or to the log, and the
    handler of the script logs no error (the conversion is outside the
    [try]). *)
Theorem script_rejects_arguments
        (env : Env F) (argv : list string) (w : World F) :
  (length argv < 3)%nat \/
  (exists a, nth_error argv 3 = Some a /\ raises (parse_int a)) ->
  exists (status : exit_status) (out : list console),
    script process_tree_ parse_int env argv w = (status, out, w) /\
    status_code status = 1%Z /\
    (forall e, ~ In (Fatal e) out) /\
    ((length argv < 3)%nat -> status = Exit 1 /\ out = [Usage]) /\
    ((3 <= length argv)%nat -> exists e, status = Traceback e /\ out = []).
Proof.
  intros [Hlen|(a & Hnth & e & He)].
  - exists (Exit 1), [Usage].
    destruct argv as [|prog [|input [|output rest]]]; simpl in Hlen; try lia;
      (split; [reflexivity|]; split; [reflexivity|]; split;
       [intros e [E|[]]; discriminate|]; split; [auto|simpl; lia]).
  - destruct argv as [|prog [|input [|output [|a' rest]]]]; try discriminate.
    simpl in Hnth. injection Hnth as ->.
    exists (Traceback e), []. unfold script, parse_workers. rewrite He.
    split; [reflexivity|]. split; [reflexivity|]. split; [intros e' []|].
    split; [simpl; lia|]. intros _. now exists e.
Qed.

End CommandLineFacts.

(** ** What a task writes *)

Section TaskTrace.

Context {F : Type} `{Float F} `{Libm F}.

Variable env : Env F.

(** X5: A task that returns has created its output folder, written for
    every angle the file named after the folder, the stem of the input
    file and the angle, and logged the input file as processed.  A file
    that had such a name is replaced; every other file is what it was,
    and no file name is listed twice. *)
Theorem process_tree_returns
        (file out : string) (angles : list Z) (w w' : World F) :
  process_tree env file out angles w = (ok tt, w') ->
  folders w' = out :: folders w /\
  log w' = (log w ++ [Processed file])%list /\
  (forall a, In a angles ->
             exists img,
               image_at w' (mkImagePath out (stem env file) a) = Some img) /\
  (forall q, (forall a, In a angles ->
                        q <> mkImagePath out (stem env file) a) ->
             image_at w' q = image_at w q) /\
  (NoDup (map fst (images w)) -> NoDup (map fst (images w'))).
Proof.
  intro Hrun.
  destruct (process_tree_trace _ _ _ _ _ Hrun)
    as (passed & rest & Ha & (-> & Hf & Hl) & Hp & Hq & Hnd & _).
  rewrite app_nil_r in Ha. subst passed.
  split; [exact Hf|]. split; [exact Hl|]. split; [exact Hp|].
  split; [exact Hq | exact Hnd].
Qed.


(** X7: A file without points: the output folder is created, then
    [np.argmax] raises [ValueError] on the empty column; no image is
    saved and nothing is logged by the task. *)
Theorem empty_cloud_fails
        (file out : string) (angles : list Z) (w : World F) :
  read_las env file = ok [] ->
  mkdir_error env out = None ->
  process_tree env file out angles w
  = (raise (ValueError "attempt to get argmax of an empty sequence"),
     mkWorld (out :: folders w) (images w) (log w)).
Proof.
  intros Hread Hmk. unfold process_tree, bind, lift, mkdir.
  rewrite Hmk. unfold ok in Hread. rewrite Hread. reflexivity.
Qed.

End TaskTrace.

(** ** Clouds of one point, and NaN heights, on binary64 *)

Module B64Edge.

Import B64.

Lemma sub_self (x : float64) : zero_or_nan (sub x x).
Proof.
  destruct x as [s|s| |s m e].
  - right. destruct s; now eexists.
  - left. now destruct s.
  - now left.
  - right. exists false. unfold sub, SFsub.
    rewrite Z.min_id. unfold shl_align. rewrite Z.sub_diag.
    cbn [fst]. reflexivity.
Qed.

Lemma div_zero_or_nan_both (x y : float64) :
  zero_or_nan x -> zero_or_nan y -> div x y = S754_nan.
Proof. intros [->|[sx ->]] [->|[sy ->]]; reflexivity. Qed.

(** One projected point: both ranges are zero (or NaN), their quotient is
    NaN, and [int] raises. *)
Lemma density_grid_single (x y : float64) :
  density_grid [(x, y)]
  = raise (ValueError "cannot convert float NaN to integer").
Proof.
  unfold density_grid, extent, array_min, array_max.
  cbn [map fst snd fold_left rbind ok]. cbv zeta.
  unfold image_width, xrange. cbn [fst snd fdiv fsub of_int int_of binary64].
  rewrite (div_zero_or_nan_both (sub_self y) (sub_self x)).
  rewrite B64Facts.div_by_nan. reflexivity.
Qed.

Lemma leb_nan (mp : float64) : SFleb S754_nan mp = false.
Proof. now destruct mp. Qed.

(** The scan of [np.argmax] stops at the first NaN. *)
Lemma argmax_scan_nan (pre post : list float64) (mp : float64)
      (max_ind i : nat) :
  (forall x, In x pre -> isnan x = false) ->
  argmax_scan mp max_ind i (pre ++ S754_nan :: post) = (i + length pre)%nat.
Proof.
  revert mp max_ind i. induction pre as [|x pre IH]; intros mp max_ind i Hpre.
  - cbn [app argmax_scan fleb fisnan binary64]. rewrite leb_nan. simpl. lia.
  - cbn [app argmax_scan fleb fisnan binary64].
    rewrite (Hpre x (or_introl eq_refl)).
    assert (Hpre' : forall y, In y pre -> isnan y = false)
      by (intros y Hy; apply Hpre; now right).
    destruct (SFleb x mp); rewrite IH by exact Hpre'; simpl; lia.
Qed.

End B64Edge.

Section SinglePoint.

Context {libm : Libm B64.float64}.

Variable env : Env B64.float64.

(** X8: A file with a single point cannot be processed, whatever the point
    and the C library are: at the first angle both ranges of the
    projection are zero (or NaN), the quotient yl / xl is NaN and [int]
    raises [ValueError].  The output folder has been created; no image
    is saved. *)
Theorem single_point_cloud_fails
        (file out : string) (p : Point3 B64.float64) (a : Z)
        (angles : list Z) (w : World B64.float64) :
  read_las env file = ok [p] ->
  mkdir_error env out = None ->
  process_tree env file out (a :: angles) w
  = (raise (ValueError "cannot convert float NaN to integer"),
     mkWorld (out :: folders w) (images w) (log w)).
Proof.
  intros Hread Hmk. unfold process_tree, bind, lift, mkdir.
  rewrite Hmk. unfold ok in Hread. rewrite Hread.
  unfold offset, find_highest_point, argmax.
  cbn [las2numpy map rbind ok px py pz].
  assert (Hidx : (if fisnan (pz p) then 0%nat
                  else argmax_scan (pz p) 0 1 []) = 0%nat)
    by (destruct (fisnan (pz p)); reflexivity).
  rewrite Hidx. cbn [nth_error rbind ok for_each]. unfold bind.
  rewrite process_angle_unfold.
  unfold projection_at, get_plane, shift, project_to_plane, dot_rows,
    column_stack.
  cbn [map combine]. rewrite B64Edge.density_grid_single. reflexivity.
Qed.

End SinglePoint.

Section NaNHeight.

(** X9: A height that is NaN wins the search for the highest point: the
    first point whose z is NaN is returned, whatever the heights of the
    other points are, and the offset is taken from it. *)
Theorem find_highest_point_nan
        (pre post : list (Point3 B64.float64)) (p : Point3 B64.float64) :
  pz p = S754_nan ->
  (forall q, In q pre -> B64.isnan (pz q) = false) ->
  find_highest_point (pre ++ p :: post) = ok p /\
  offset (pre ++ p :: post) = ok (mkPoint3 (px p) (py p) (B64.of_Z 0)).
Proof.
  intros Hp Hpre.
  assert (Hfind : find_highest_point (pre ++ p :: post) = ok p).
  { unfold find_highest_point.
    assert (Hidx : argmax (map pz (pre ++ p :: post)) = ok (length pre)).
    { rewrite map_app. cbn [map]. rewrite Hp.
      destruct pre as [|q pre]; [reflexivity|].
      cbn [map app argmax fisnan binary64].
      rewrite (Hpre q (or_introl eq_refl)).
      rewrite B64Edge.argmax_scan_nan.
      - now rewrite length_map.
      - intros x Hx. apply in_map_iff in Hx. destruct Hx as (q' & <- & Hq').
        apply Hpre. now right. }
    rewrite Hidx. cbn [rbind ok].
    rewrite nth_error_app2 by lia. now rewrite Nat.sub_diag. }
  split; [exact Hfind|]. unfold offset. rewrite Hfind. reflexivity.
Qed.

End NaNHeight.

(** ** The cells of the histogram, for every numeric instance *)

Section HistogramCells.

Context {F : Type} `{Float F}.

Lemma filter_filter_implied (A : Type) (f g : A -> bool) (l : list A) :
  (forall x, f x = true -> g x = true) ->
  filter f (filter g l) = filter f l.
Proof.
  intro Himp. induction l as [|a l IH]; [reflexivity|].
  cbn [filter]. destruct (g a) eqn:Hg.
  - cbn [filter]. now rewrite IH.
  - rewrite IH. destruct (f a) eqn:Hf; [|reflexivity].
    apply Himp in Hf. congruence.
Qed.

(** The cells of a grid count each point at most once: their sum is the
    number of the points whose two bin numbers are inside the grid. *)
Lemma grid_total_inside (P : Type) (bx by_ : P -> nat) (rows cols : nat)
      (points : list P) :
  grid_total
    (map (fun j =>
            map (fun i =>
                   length (filter (fun p => Nat.eqb (bx p) (S i)
                                            && Nat.eqb (by_ p) (S j)) points))
                (seq 0 rows))
         (seq 0 cols))
  = length (filter (fun p => ((1 <=? bx p) && (bx p <=? rows)
                              && ((1 <=? by_ p) && (by_ p <=? cols)))%nat)
                   points).
Proof.
  set (inside := fun p => ((1 <=? bx p) && (bx p <=? rows)
                           && ((1 <=? by_ p) && (by_ p <=? cols)))%nat).
  rewrite <- (@grid_total_partition P bx by_ rows cols (filter inside points)).
  - f_equal. apply map_ext_in. intros j Hj. apply in_seq in Hj.
    apply map_ext_in. intros i Hi. apply in_seq in Hi.
    f_equal. symmetry. apply filter_filter_implied.
    intros p Hp. apply andb_prop in Hp. destruct Hp as [Hx Hy].
    apply Nat.eqb_eq in Hx, Hy. unfold inside. rewrite Hx, Hy.
    repeat (apply andb_true_intro; split); apply Nat.leb_le; lia.
  - intros p Hp. apply filter_In in Hp. destruct Hp as [_ Hp].
    unfold inside in Hp.
    repeat match goal with
           | Hc : (_ && _)%bool = true |- _ =>
               apply andb_prop in Hc; destruct Hc
           | Hc : (_ <=? _)%nat = true |- _ => apply Nat.leb_le in Hc
           end.
    lia.
Qed.

Lemma hist2d_returns (points : list (F * F)) (xbins ybins : list F)
      (arr : list (list nat)) :
  hist2d points xbins ybins = ok arr ->
  increasing xbins = true /\ increasing ybins = true /\
  arr = map (fun j =>
               map (fun i => count_in points xbins ybins (S i) (S j))
                   (seq 0 (length xbins - 1)))
            (seq 0 (length ybins - 1)).
Proof.
  unfold hist2d, histogram2d.
  destruct (increasing xbins); [|discriminate].
  destruct (increasing ybins); [|discriminate].
  cbn [negb].
  destruct xbins as [|x xbins]; [discriminate|].
  destruct ybins as [|y ybins]; [discriminate|].
  cbn [rbind ok]. intro E. injection E as <-.
  split; [reflexivity|]. split; [reflexivity|].
  apply (transpose_cells
           (fun i j => count_in points (x :: xbins) (y :: ybins) (S i) (S j))).
Qed.

(** X10: The shape and the orientation of the array [hist2d] returns: one row
    for each bin of the second coordinate, one column for each bin of the
    first, and the entry of row [j] and column [i] counts the points of
    x-bin [i + 1] and y-bin [j + 1] (the transpose of what
    [np.histogram2d] returns). *)
Theorem hist2d_rows_follow_y
        (points : list (F * F)) (xbins ybins : list F)
        (arr : list (list nat)) :
  hist2d points xbins ybins = ok arr ->
  length arr = (length ybins - 1)%nat /\
  (forall row, In row arr -> length row = (length xbins - 1)%nat) /\
  forall i j,
    (i < length xbins - 1)%nat -> (j < length ybins - 1)%nat ->
    count_at arr j i = count_in points xbins ybins (S i) (S j).
Proof.
  intro Hh. destruct (hist2d_returns _ _ _ Hh) as (_ & _ & ->).
  split; [now rewrite length_map, length_seq|]. split.
  - intros row Hrow. apply in_map_iff in Hrow.
    destruct Hrow as (j & <- & _). now rewrite length_map, length_seq.
  - intros i j Hi Hj. unfold count_at.
    rewrite (nth_map_seq
               (fun j0 =>
                  map (fun i0 => count_in points xbins ybins (S i0) (S j0))
                      (seq 0 (length xbins - 1)))) by exact Hj.
    exact (nth_map_seq (fun i0 => count_in points xbins ybins (S i0) (S j))
                       0%nat Hi).
Qed.

(** X11: No point is counted twice and none is invented: the cells of the
    array sum to the number of the points that fall in a proper bin on
    both axes, which is at most the number of the points.  This holds
    on binary64 as in exact arithmetic. *)
Theorem hist2d_total_inside
        (points : list (F * F)) (xbins ybins : list F)
        (arr : list (list nat)) :
  hist2d points xbins ybins = ok arr ->
  grid_total arr = length (filter (in_grid xbins ybins) points) /\
  (grid_total arr <= length points)%nat.
Proof.
  intro Hh. destruct (hist2d_returns _ _ _ Hh) as (_ & _ & ->).
  assert (Htotal :
            grid_total
              (map (fun j =>
                      map (fun i => count_in points xbins ybins (S i) (S j))
                          (seq 0 (length xbins - 1)))
                   (seq 0 (length ybins - 1)))
            = length (filter (in_grid xbins ybins) points)).
  { unfold count_in.
    exact (@grid_total_inside
             _ (fun p => bin_index xbins (fst p))
             (fun p => bin_index ybins (snd p))
             (length xbins - 1) (length ybins - 1) points). }
  split; [exact Htotal|]. rewrite Htotal. apply filter_length_le.
Qed.

End HistogramCells.

(** ** Extents, offset and planes, in exact arithmetic *)

Section ExactGeometry.

Local Open Scope R_scope.

Lemma fold_fmin_invariant (P : R -> Prop) (l : list R) (x : R) :
  P x -> (forall y, In y l -> P y) -> P (fold_left fmin l x).
Proof.
  revert x. induction l as [|y l IH]; intros x Hx Hl; simpl; [exact Hx|].
  apply IH.
  - unfold fmin. simpl. destruct (Exact.ltb y x); [apply Hl; now left | exact Hx].
  - intros z Hz. apply Hl. now right.
Qed.

Lemma extent_attained (a : list R) (ext : R * R) :
  extent a = ok ext -> In (fst ext) a /\ In (snd ext) a.
Proof.
  destruct a as [|x0 a]; [discriminate|].
  unfold extent. simpl. intro E. injection E as <-. simpl. split.
  - apply (fold_fmin_invariant (fun m => x0 = m \/ In m a)); auto.
  - apply (fold_fmax_invariant (fun m => x0 = m \/ In m a)); auto.
Qed.

(** X15: The extent of a column is tight: its two ends are elements of the
    column, and every element lies between them.
    Stated in exact arithmetic. *)
Theorem extent_tight (a : list R) (ext : R * R) :
  extent a = ok ext ->
  In (fst ext) a /\ In (snd ext) a /\
  forall x, In x a -> fst ext <= x <= snd ext.
Proof.
  intro He. destruct (extent_attained _ He) as [Hlo Hhi].
  split; [exact Hlo|]. split; [exact Hhi|]. exact (extent_encloses _ He).
Qed.

(** X16: The range of a column is never negative, and it is zero exactly when
    all the elements of the column are equal: that is the degenerate case
    in which the bin width is zero.
    Stated in exact arithmetic. *)
Theorem range_zero_iff_constant (a : list R) (ext : R * R) :
  extent a = ok ext ->
  0 <= xrange ext /\
  (xrange ext = 0 <-> forall x y, In x a -> In y a -> x = y).
Proof.
  intro He. destruct (extent_attained _ He) as [Hlo Hhi].
  pose proof (extent_encloses _ He) as Henc.
  unfold xrange. simpl. split.
  - destruct (Henc _ Hlo). lra.
  - split.
    + intros Hz x y Hx Hy.
      destruct (Henc _ Hx), (Henc _ Hy). lra.
    + intro Hall. rewrite (Hall _ _ Hhi Hlo). lra.
Qed.

Lemma shift_heights (points : list (Point3 R)) (o : Point3 R) :
  pz o = 0 -> map pz (shift points o) = map pz points.
Proof.
  intro Ho. unfold shift. rewrite map_map. simpl. rewrite Ho.
  apply map_ext. intro p. lra.
Qed.

(** X17: The shift puts the highest point on the vertical axis and keeps its
    height: the point at the index of the highest point becomes
    (0, 0, z), it is still the highest point, so the offset of the
    shifted cloud is the origin and a second shift changes nothing.
    Stated in exact arithmetic. *)
Theorem shift_centres_highest_point
        (points : list (Point3 R)) (o : Point3 R) :
  offset points = ok o ->
  exists (i : nat) (h : Point3 R),
    find_highest_point points = ok h /\
    nth_error points i = Some h /\
    nth_error (shift points o) i = Some (mkPoint3 0 0 (pz h)) /\
    find_highest_point (shift points o) = ok (mkPoint3 0 0 (pz h)) /\
    offset (shift points o) = ok (mkPoint3 0 0 0) /\
    shift (shift points o) (mkPoint3 0 0 0) = shift points o.
Proof.
  intro Ho. pose proof (offset_vertical _ Ho) as Hz.
  unfold offset, find_highest_point in Ho.
  destruct (argmax (map pz points)) as [e|i] eqn:Hi; [discriminate|].
  cbn [rbind] in Ho.
  destruct (nth_error points i) as [h|] eqn:Hh; [|discriminate].
  cbn [rbind ok] in Ho. injection Ho as <-.
  assert (Hs : nth_error (shift points (mkPoint3 (px h) (py h) 0)) i
               = Some (mkPoint3 0 0 (pz h))).
  { unfold shift. rewrite nth_error_map, Hh. simpl. f_equal.
    f_equal; lra. }
  assert (Hf : find_highest_point (shift points (mkPoint3 (px h) (py h) 0))
               = ok (mkPoint3 0 0 (pz h))).
  { unfold find_highest_point. rewrite shift_heights by exact Hz.
    rewrite Hi. cbn [rbind]. now rewrite Hs. }
  assert (Hp : find_highest_point points = ok h).
  { unfold find_highest_point. rewrite Hi. cbn [rbind]. now rewrite Hh. }
  exists i, h. split; [exact Hp|]. split; [exact Hh|].
  split; [exact Hs|]. split; [exact Hf|]. split.
  - unfold offset. rewrite Hf. reflexivity.
  - unfold shift at 1. rewrite <- (map_id (shift points _)) at 2.
    apply map_ext. intros [x y z]. simpl. f_equal; lra.
Qed.

(** X18: The three vectors of [get_plane] are an orthonormal basis at every
    angle: v has length one and is orthogonal to u and to n, and the
    three coordinates of two points in this basis give their inner
    product back, so the projection and the depth along n together lose
    nothing.
    Stated in exact arithmetic. *)
Theorem get_plane_preserves_dot (a : R) (p q : Point3 R) :
  let '(u, v, n) := get_plane a in
  dot v v = 1 /\ dot u v = 0 /\ dot n v = 0 /\
  dot p u * dot q u + dot p v * dot q v + dot p n * dot q n = dot p q.
Proof.
  unfold get_plane, radians, dot, zero, one. simpl.
  set (t := a * (PI / 180)).
  pose proof (sin2_cos2 t) as Hsc. unfold Rsqr in Hsc.
  set (c := cos t) in *. set (s := sin t) in *. clearbody c s.
  split; [lra|]. split; [lra|]. split; [lra|].
  destruct p as [x1 y1 z1], q as [x2 y2 z2]. simpl.
  transitivity ((x1 * x2 + y1 * y2) * (s * s + c * c) + z1 * z2);
    [ring | rewrite Hsc; ring].
Qed.

(** X19: The view from the opposite side is the mirror image: at the angle
    plus 180 degrees the first coordinate of every projected point
    changes its sign and the second stays.
    Stated in exact arithmetic. *)
Theorem opposite_view_mirrors (a : R) (points : list (Point3 R)) :
  let '(u, v, _) := get_plane a in
  let '(u', v', _) := get_plane (a + 180) in
  project_to_plane points u' v'
  = map (fun xy => (- fst xy, snd xy)) (project_to_plane points u v).
Proof.
  unfold get_plane, radians, zero, one. simpl.
  replace ((a + 180) * (PI / 180)) with (a * (PI / 180) + PI) by (field; lra).
  rewrite neg_cos, neg_sin.
  rewrite !project_to_plane_map, map_map. apply map_ext.
  intros [x y z]. unfold dot. simpl. f_equal. ring.
Qed.

(** X21: The width of the image at its two ends: it is never negative; it is
    zero exactly when the cloud is more than a thousand times higher than
    wide, and at least the height of 1000 exactly when the cloud is at
    least as wide as high.
    Stated in exact arithmetic. *)
Theorem image_width_ends (xl yl : R) :
  0 < xl -> 0 < yl ->
  exists w : Z,
    image_width xl yl = ok w /\
    (0 <= w)%Z /\
    (w = 0%Z <-> 1000 * xl < yl) /\
    ((ypx <= w)%Z <-> yl <= xl).
Proof.
  intros Hx Hy. exists (Exact.floor (1000 / (yl / xl))).
  split; [now apply image_width_floor|].
  set (q := 1000 / (yl / xl)).
  assert (Hq : q * yl = 1000 * xl) by (unfold q; field; lra).
  destruct (ExactFacts.floor_spec q) as [Hlo Hhi].
  set (f := Exact.floor q) in *. clearbody f.
  assert (Hqpos : 0 < q).
  { unfold q. apply Rdiv_lt_0_compat; [lra|]. now apply Rdiv_lt_0_compat. }
  assert (Hf0 : (0 <= f)%Z).
  { assert (-1 < f)%Z by (apply lt_IZR; lra). lia. }
  split; [exact Hf0|]. split; [split|split].
  - intros ->. simpl in Hhi. nra.
  - intro Hlt. assert (Hq1 : q < 1) by nra.
    assert (f < 1)%Z by (apply lt_IZR; lra). lia.
  - unfold ypx. intro Hw. apply IZR_le in Hw. nra.
  - unfold ypx. intro Hle. assert (Hq1 : 1000 <= q) by nra.
    assert (999 < f)%Z by (apply lt_IZR; lra). lia.
Qed.

End ExactGeometry.

(** ** The size of the grid and the colours, in exact arithmetic *)

Section ExactGrid.

Local Open Scope R_scope.

(** The edges of one axis cover the range with bins of width [pd]. *)
Lemma bin_edges_cover (ext : R * R) (pd : R) :
  0 < pd -> fst ext < snd ext ->
  (Exact.ceil ((snd ext + pd - fst ext) / pd) <= B64.intp_max)%Z ->
  exists m : nat,
    (1 <= m)%nat /\
    bin_edges ext pd = ok (edges_of (fst ext) pd (S m)) /\
    snd ext - fst ext <= INR m * pd.
Proof.
  intros Hpd Hext Hfit.
  destruct (@arange_exact (fst ext) (snd ext + pd) pd Hpd)
    as (n & Hn & Hlast & Har); [lra | exact Hfit |].
  destruct n as [|m]; [lia|]. exists m. split; [lia|]. split; [exact Har|].
  rewrite S_INR in Hlast. lra.
Qed.

(** What [density_grid] returns in exact arithmetic when both ranges are
    positive: the width, the shape of the array, and bins that cover the
    two ranges. *)
Lemma density_grid_exact (projected : list (R * R)) (xext yext : R * R) :
  extent (map fst projected) = ok xext ->
  extent (map snd projected) = ok yext ->
  0 < xrange xext -> 0 < xrange yext ->
  let pd := point_density (xrange xext) (xrange yext) (length projected) in
  (Exact.ceil ((snd xext + pd - fst xext) / pd) <= B64.intp_max)%Z ->
  (Exact.ceil ((snd yext + pd - fst yext) / pd) <= B64.intp_max)%Z ->
  exists (g : Grid) (mx my : nat),
    density_grid projected = ok g /\
    (1 <= mx)%nat /\ (1 <= my)%nat /\
    width_px g = Exact.floor (1000 / (xrange yext / xrange xext)) /\
    length (counts g) = my /\
    (forall row, In row (counts g) -> length row = mx) /\
    xrange xext <= INR mx * pd /\ xrange yext <= INR my * pd.
Proof.
  intros Hx Hy Hxl Hyl pd Hfx Hfy.
  assert (Hn : (1 <= length projected)%nat).
  { destruct projected; [discriminate | simpl; lia]. }
  assert (Hpd : 0 < pd).
  { unfold pd, point_density. simpl. apply sqrt_lt_R0.
    apply Rdiv_lt_0_compat; [now apply Rmult_lt_0_compat|].
    apply IZR_lt. lia. }
  assert (Hxl' : fst xext < snd xext) by (unfold xrange in Hxl; simpl in Hxl; lra).
  assert (Hyl' : fst yext < snd yext) by (unfold xrange in Hyl; simpl in Hyl; lra).
  destruct (bin_edges_cover xext Hpd Hxl' Hfx) as (mx & Hmx & Hxb & Hxc).
  destruct (bin_edges_cover yext Hpd Hyl' Hfy) as (my & Hmy & Hyb & Hyc).
  unfold density_grid. rewrite Hx, Hy. cbn [rbind ok]. cbv zeta.
  rewrite image_width_floor by assumption.
  cbn [rbind ok]. fold pd. unfold ok in Hxb, Hyb. rewrite Hxb, Hyb.
  cbn [rbind]. unfold hist2d, histogram2d.
  rewrite !edges_of_increasing by exact Hpd.
  cbn [negb rbind ok]. rewrite !edges_of_length.
  replace (S mx - 1)%nat with mx by lia.
  replace (S my - 1)%nat with my by lia.
  eexists _, mx, my. split; [reflexivity|]. cbn [counts width_px].
  split; [exact Hmx|]. split; [exact Hmy|]. split; [reflexivity|].
  unfold transpose. split; [now rewrite length_map, length_seq|]. split.
  { intros row Hrow. apply in_map_iff in Hrow.
    destruct Hrow as (j & <- & _). now rewrite length_map, length_seq. }
  unfold xrange. simpl. split; [exact Hxc | exact Hyc].
Qed.

(** X13: The bin width is chosen so that the grid has at least one cell for
    each point: with both ranges positive, the array has as many rows as
    there are bins of width [pd] over the y-range, as many columns as
    there are over the x-range, and rows times columns is at least the
    number of the points.
    Stated in exact arithmetic. *)
Theorem grid_has_a_cell_per_point
        (projected : list (R * R)) (xext yext : R * R) :
  extent (map fst projected) = ok xext ->
  extent (map snd projected) = ok yext ->
  0 < xrange xext -> 0 < xrange yext ->
  let pd := point_density (xrange xext) (xrange yext) (length projected) in
  (Exact.ceil ((snd xext + pd - fst xext) / pd) <= B64.intp_max)%Z ->
  (Exact.ceil ((snd yext + pd - fst yext) / pd) <= B64.intp_max)%Z ->
  exists (g : Grid) (mx my : nat),
    density_grid projected = ok g /\
    length (counts g) = my /\
    (forall row, In row (counts g) -> length row = mx) /\
    xrange xext <= INR mx * pd /\ xrange yext <= INR my * pd /\
    (length projected <= mx * my)%nat.
Proof.
  intros Hx Hy Hxl Hyl pd Hfx Hfy.
  destruct (density_grid_exact projected Hx Hy Hxl Hyl Hfx Hfy)
    as (g & mx & my & Hg & _ & _ & _ & Hrows & Hcols & Hxc & Hyc).
  fold pd in Hxc, Hyc.
  exists g, mx, my. split; [exact Hg|]. split; [exact Hrows|].
  split; [exact Hcols|]. split; [exact Hxc|]. split; [exact Hyc|].
  assert (Hn : (1 <= length projected)%nat).
  { destruct projected; [discriminate | simpl; lia]. }
  assert (HN : 0 < INR (length projected)) by (apply lt_0_INR; lia).
  assert (Hsq : pd * pd = xrange xext * xrange yext / INR (length projected)).
  { unfold pd, point_density. simpl. rewrite <- INR_IZR_INZ.
    apply sqrt_sqrt. apply Rlt_le. apply Rdiv_lt_0_compat; [|exact HN].
    now apply Rmult_lt_0_compat. }
  assert (Hpd : 0 < pd).
  { unfold pd, point_density. simpl. apply sqrt_lt_R0.
    apply Rdiv_lt_0_compat; [now apply Rmult_lt_0_compat|].
    apply IZR_lt. lia. }
  apply INR_le. rewrite mult_INR.
  set (xl := xrange xext) in *. set (yl := xrange yext) in *.
  set (N := INR (length projected)) in *. clearbody pd xl yl N.
  assert (Hprod : xl * yl <= (INR mx * INR my) * (pd * pd)).
  { replace (INR mx * INR my * (pd * pd))
      with ((INR mx * pd) * (INR my * pd)) by ring.
    apply Rmult_le_compat; lra. }
  rewrite Hsq in Hprod.
  assert (Hxy : 0 < xl * yl) by now apply Rmult_lt_0_compat.
  assert (Hprod' : (xl * yl) * N <= (xl * yl) * (INR mx * INR my)).
  { apply Rmult_le_compat_r with (r := N) in Hprod; [|lra].
    replace (INR mx * INR my * (xl * yl / N) * N)
      with (xl * yl * (INR mx * INR my)) in Hprod by (field; lra).
    exact Hprod. }
  apply Rmult_le_reg_l with (r := xl * yl); assumption.
Qed.

(** A grid with a cell and a width of 0 px is refused by [imshow]. *)
Lemma heatmap_rejects (g : Grid) (c : nat) (cs : list nat)
      (rest : list (list nat)) :
  counts g = (c :: cs) :: rest -> (width_px g <= 0)%Z ->
  heatmap g = raise (ValueError "aspect must be finite and positive").
Proof.
  intros Hc Hw. unfold heatmap. rewrite Hc.
  cbn [log_transform map concat app]. unfold array_max.
  cbn [rbind ok]. cbv zeta.
  change (fdiv (of_int (width_px g)) (of_int ypx))
    with (IZR (width_px g) / 1000).
  rewrite set_aspect_nonpositive; [reflexivity|].
  apply IZR_le in Hw. unfold Rdiv.
  assert (0 < / 1000) by (apply Rinv_0_lt_compat; lra). nra.
Qed.

(** X14: In exact arithmetic, what a pass of the loop does on a projection
    whose two ranges are positive is decided by its proportions.  When
    the height is at most 1000 times the width, the pass computes the
    grid, renders it and, if the file can be written, returns with the
    image of its angle written and nothing else changed; the aspect is
    the truncated width over 1000, and is positive.  When the height is
    more than 1000 times the width, the width is 0 px, [imshow] raises
    [ValueError] and nothing is written. *)
Theorem nondegenerate_pass_saves_image
        (env : Env R) (file out : string) (shifted : list (Point3 R))
        (angle : Z) (w : World R) (xext yext : R * R) :
  let projected := projection_at shifted angle in
  extent (map fst projected) = ok xext ->
  extent (map snd projected) = ok yext ->
  0 < xrange xext -> 0 < xrange yext ->
  let pd := point_density (xrange xext) (xrange yext) (length projected) in
  (Exact.ceil ((snd xext + pd - fst xext) / pd) <= B64.intp_max)%Z ->
  (Exact.ceil ((snd yext + pd - fst yext) / pd) <= B64.intp_max)%Z ->
  let filepath := mkImagePath out (stem env file) angle in
  (xrange yext <= 1000 * xrange xext ->
   (forall img, savefig_error env filepath img = None) ->
   exists (img : Image R) (w' : World R),
     process_angle env file out shifted angle w = (ok tt, w') /\
     image_at w' filepath = Some img /\
     (forall q, q <> filepath -> image_at w' q = image_at w q) /\
     folders w' = folders w /\ log w' = log w /\
     img_aspect img
     = IZR (Exact.floor (1000 / (xrange yext / xrange xext))) / 1000 /\
     0 < img_aspect img) /\
  (1000 * xrange xext < xrange yext ->
   process_angle env file out shifted angle w
   = (raise (ValueError "aspect must be finite and positive"), w)).
Proof.
  intros projected Hx Hy Hxl Hyl pd Hfx Hfy filepath.
  destruct (density_grid_exact projected Hx Hy Hxl Hyl Hfx Hfy)
    as (g & mx & my & Hg & Hmx & Hmy & Hw & Hrows & Hcols & _).
  assert (Hcells : exists c cs rest, counts g = (c :: cs) :: rest).
  { destruct (counts g) as [|row rest]; [simpl in Hrows; lia|].
    specialize (Hcols row (or_introl eq_refl)).
    destruct row as [|c cs]; [simpl in Hcols; lia|]. now exists c, cs, rest. }
  destruct Hcells as (c & cs & rest & Hcells).
  set (q := 1000 / (xrange yext / xrange xext)) in *.
  assert (Hq : q * xrange yext = 1000 * xrange xext)
    by (unfold q; field; lra).
  destruct (ExactFacts.floor_spec q) as [Hlo Hhi].
  rewrite process_angle_unfold. fold projected.
  unfold ok in Hg. rewrite Hg. split.
  - intros Hprop Hsave.
    assert (Hq1 : 1 <= q) by nra.
    assert (Hpos : (0 < width_px g)%Z).
    { rewrite Hw. apply lt_IZR. lra. }
    destruct (heatmap_returns g Hcells Hpos) as [img Himg].
    destruct (heatmap_inv _ Himg) as (top & _ & Hasp & Himg').
    unfold ok in Himg. rewrite Himg.
    destruct (savefig_outcome env filepath img w)
      as [[e He]|(w' & Hs & Hf & Hl & Hp & Hother & _)].
    + unfold savefig in He. rewrite Hsave in He. discriminate.
    + exists img, w'. fold filepath. split; [exact Hs|].
      split; [exact Hp|]. split; [exact Hother|].
      split; [exact Hf|]. split; [exact Hl|].
      rewrite Himg'. cbn [img_aspect]. rewrite <- Hw. split;
        [reflexivity | exact Hasp].
  - intro Hthin.
    assert (Hq1 : q < 1) by nra.
    assert (Hzero : (width_px g <= 0)%Z).
    { rewrite Hw. assert (Exact.floor q < 1)%Z by (apply lt_IZR; lra). lia. }
    now rewrite (heatmap_rejects g Hcells Hzero).
Qed.

(** X22: The colours of the image: its aspect is the width over 1000; every
    cell is painted with a darkness in (0, 1]; a cell whose logarithm
    reaches [vmax], half the largest logarithm of the grid, is painted
    black, and an empty cell is painted with 1 / (vmax + 1), never
    white, because the window starts at -1.
    Stated in exact arithmetic. *)
Theorem heatmap_darkness_bounds (g : Grid) (img : Image R) :
  heatmap g = ok img ->
  img_aspect img = IZR (width_px g) / 1000 /\
  forall i j,
    0 < darkness img i j <= 1 /\
    (img_vmax img <= log1p (count_at (counts g) i j) ->
     darkness img i j = 1) /\
    (count_at (counts g) i j = 0%nat ->
     darkness img i j = 1 / (img_vmax img + 1)).
Proof.
  intro Hh. destruct (heatmap_window _ Hh) as (Hd & Hmin & Hmax).
  assert (Hasp : img_aspect img = IZR (width_px g) / 1000).
  { destruct (heatmap_inv _ Hh) as (top & _ & _ & ->). reflexivity. }
  split; [exact Hasp|]. intros i j. unfold darkness.
  destruct img as [data aspect vmin vmax]. simpl in Hd, Hmin, Hmax |- *.
  subst data vmin. rewrite cell_log_transform. unfold normalize. simpl.
  pose proof (log1p_nonneg (count_at (counts g) i j)) as HL.
  set (L := log1p (count_at (counts g) i j)) in *.
  assert (Hden : 0 < vmax - -1) by lra.
  assert (Ht : 0 < (L - -1) / (vmax - -1))
    by (apply Rdiv_lt_0_compat; lra).
  assert (Hcmp : L < vmax -> (L - -1) / (vmax - -1) < 1).
  { intro Hlt. apply Rmult_lt_reg_r with (r := vmax - -1); [exact Hden|].
    unfold Rdiv. rewrite Rmult_assoc, Rinv_l by lra. lra. }
  assert (Hcmp' : vmax <= L -> 1 <= (L - -1) / (vmax - -1)).
  { intro Hle. apply Rmult_le_reg_r with (r := vmax - -1); [exact Hden|].
    unfold Rdiv. rewrite Rmult_assoc, Rinv_l by lra. lra. }
  assert (HL0 : count_at (counts g) i j = 0%nat -> L = 0).
  { intro Hc. unfold L. rewrite Hc. apply log1p_0. }
  clearbody L.
  unfold clip01, zero, one. simpl. unfold Exact.ltb.
  destruct (Rlt_dec ((L - -1) / (vmax - -1)) 0) as [Hneg|_]; [lra|].
  destruct (Rlt_dec 1 ((L - -1) / (vmax - -1))) as [Hbig|Hsmall].
  - split; [lra|]. split; [reflexivity|].
    intro Hc. exfalso. apply HL0 in Hc. subst L.
    destruct (Rle_lt_or_eq_dec _ _ Hmax) as [Hpos|Hzero].
    + specialize (Hcmp Hpos). lra.
    + subst vmax.
      replace ((0 - -1) / (0 - -1)) with 1 in Hbig by (field; lra). lra.
  - split; [lra|]. split.
    + intro Hle. specialize (Hcmp' Hle). lra.
    + intro Hc. rewrite (HL0 Hc). field. lra.
Qed.

End ExactGrid.

(** ** Further concrete runs *)

Section MoreRuns.

Local Open Scope string_scope.

Lemma collect_tasks_pairs_witness :
  [("in/Oak/tree1.las", "out/Oak"); ("in/Oak/tree2.laz", "out/Oak")]
  = discovered_tasks species_env "out" species_root /\
  map fst [("in/Oak/tree1.las", "out/Oak"); ("in/Oak/tree2.laz", "out/Oak")]
  = discovered species_root.
Proof.
  destruct (@collect_tasks_pairs
              R species_env "in" "out"
              [mkFolder "Oak" ["in/Oak/tree1.las"] ["in/Oak/tree2.laz"]]
              ["in/stray.las"] [] empty_world empty_world
              [("in/Oak/tree1.las", "out/Oak");
               ("in/Oak/tree2.laz", "out/Oak")])
    as (Htasks & Hfiles & _).
  - reflexivity.
  - split; [exact Htasks | exact Hfiles].
Defined.

Lemma main_summary_counts_witness :
  exists (s : nat) (w1 : World R),
    main flat_task flat_env "in" "out" (Some 2%Z) empty_world
    = (ok tt, append_log w1 (Completed s 1)) /\
    (s <= 1)%nat.
Proof.
  destruct (@main_summary_counts R flat_task flat_env "in" "out" (Some 2%Z)
                                 empty_world)
    as (s & w1 & Hmain & Hle & _).
  - apply flat_env_has_input.
  - simpl. lia.
  - exists s, w1. split; [exact Hmain | exact Hle].
Defined.

Lemma script_exit_status_witness :
  status_code
    (fst (fst (script flat_task sample_int flat_env
                      ["TreeProjection.py"; "in"; "out"; "4"] empty_world)))
  = 0%Z.
Proof.
  apply (@script_exit_status R flat_task sample_int flat_env
                             "TreeProjection.py" "in" "out" ["4"]
                             (Some 4%Z) empty_world).
  - reflexivity.
  - split; [apply flat_env_has_input | simpl; lia].
Defined.

Lemma script_rejects_arguments_witness :
  exists (status : exit_status) (out : list console),
    script flat_task sample_int flat_env
           ["TreeProjection.py"; "in"; "out"; "four"] empty_world
    = (status, out, empty_world) /\
    status_code status = 1%Z.
Proof.
  destruct (@script_rejects_arguments
              R flat_task sample_int flat_env
              ["TreeProjection.py"; "in"; "out"; "four"] empty_world)
    as (status & out & Hrun & Hcode & _).
  - right. exists "four". split; [reflexivity|]. eexists. reflexivity.
  - exists status, out. split; [exact Hrun | exact Hcode].
Defined.

Lemma process_tree_returns_witness :
  let run := process_tree (H0 := libm_table) tilted_env "tree1.las" "out"
                          [0; 45]%Z (mkWorld [] [] []) in
  folders (snd run) = ["out"] /\
  log (snd run) = [Processed "tree1.las"] /\
  (forall a, In a [0; 45]%Z ->
             exists img,
               image_at (snd run) (mkImagePath "out" "tree1" a) = Some img) /\
  (forall q, (forall a, In a [0; 45]%Z -> q <> mkImagePath "out" "tree1" a) ->
             image_at (snd run) q = None) /\
  (NoDup (@nil image_path) -> NoDup (map fst (images (snd run)))).
Proof.
  intro run.
  assert (Hrun : run = (ok tt, snd run)) by (vm_compute; reflexivity).
  exact (@process_tree_returns B64.float64 binary64 libm_table tilted_env
                               "tree1.las" "out" [0; 45]%Z
                               (mkWorld [] [] []) (snd run) Hrun).
Defined.


Lemma empty_cloud_fails_witness :
  process_tree empty_cloud_env "empty.las" "out" default_angles empty_world
  = (raise (ValueError "attempt to get argmax of an empty sequence"),
     mkWorld ["out"] [] []).
Proof.
  apply (@empty_cloud_fails R exact exact_libm empty_cloud_env
                            "empty.las" "out" default_angles empty_world);
    reflexivity.
Defined.

Lemma single_point_cloud_fails_witness :
  process_tree (H0 := libm_table) single_point_env "tree1.las" "out"
               default_angles (mkWorld [] [] [])
  = (raise (ValueError "cannot convert float NaN to integer"),
     mkWorld ["out"] [] []).
Proof.
  apply (@single_point_cloud_fails
           libm_table single_point_env "tree1.las" "out" (b64_point 1 2 3)
           0%Z [45; 90; 135]%Z (mkWorld [] [] []));
    reflexivity.
Defined.

Lemma find_highest_point_nan_witness :
  find_highest_point [b64_point 0 0 1; nan_point; b64_point 0 0 5]
  = ok nan_point.
Proof.
  apply (@find_highest_point_nan [b64_point 0 0 1] [b64_point 0 0 5] nan_point).
  - reflexivity.
  - intros q [<-|[]]. vm_compute. reflexivity.
Defined.

Lemma strip_hist2d :
  hist2d strip_points strip_xbins strip_ybins = ok [[1; 1]]%nat.
Proof. vm_compute. reflexivity. Qed.

Lemma hist2d_rows_follow_y_witness :
  length [[1; 1]]%nat = (length strip_ybins - 1)%nat /\
  count_at [[1; 1]]%nat 0 1 = count_in strip_points strip_xbins strip_ybins 2 1.
Proof.
  destruct (@hist2d_rows_follow_y B64.float64 binary64 strip_points
                                  strip_xbins strip_ybins _ strip_hist2d)
    as (Hrows & _ & Hcell).
  split; [exact Hrows|]. apply Hcell; simpl; lia.
Defined.

Lemma hist2d_total_inside_witness :
  grid_total [[1; 1]]%nat
  = length (filter (in_grid strip_xbins strip_ybins) strip_points) /\
  (grid_total [[1; 1]]%nat <= length strip_points)%nat.
Proof.
  apply (@hist2d_total_inside B64.float64 binary64 strip_points
                              strip_xbins strip_ybins _ strip_hist2d).
Defined.

End MoreRuns.

Section MoreExactRuns.

Local Open Scope R_scope.

Lemma square_extent :
  extent [0; 2; 1; 1] = ok (0, 2).
Proof.
  unfold extent, array_min, array_max. cbn [fold_left rbind ok].
  rewrite !fmin_exact, !fmax_exact.
  rewrite (Rmin_left 0 2), !(Rmin_left 0 1) by lra.
  rewrite (Rmax_right 0 2), !(Rmax_left 2 1) by lra.
  reflexivity.
Qed.

Lemma square_bin_width : point_density (xrange (0, 2)) (xrange (0, 2)) 4 = 1.
Proof.
  unfold point_density, xrange. simpl.
  replace ((2 - 0) * (2 - 0) / 4) with 1 by lra. apply sqrt_1.
Qed.

Lemma square_edges_fit :
  let pd := point_density (xrange (0, 2)) (xrange (0, 2))
                          (length square_points) in
  (Exact.ceil ((snd (0, 2) + pd - fst (0, 2)) / pd)%R <= B64.intp_max)%Z.
Proof.
  intro pd. unfold pd. change (length square_points) with 4%nat.
  rewrite square_bin_width. simpl.
  replace (Exact.ceil ((2 + 1 - 0) / 1)) with 3%Z; [discriminate|].
  unfold Exact.ceil. symmetry.
  rewrite (@ExactFacts.floor_unique (- ((2 + 1 - 0) / 1)) (-3)%Z);
    [reflexivity|lra].
Qed.

Lemma extent_tight_witness :
  In (fst (0, 2)) [0; 2; 1; 1] /\ In (snd (0, 2)) [0; 2; 1; 1] /\
  forall x, In x [0; 2; 1; 1] -> fst (0, 2) <= x <= snd (0, 2).
Proof. apply (@extent_tight [0; 2; 1; 1] (0, 2)). exact square_extent. Defined.

Lemma range_zero_iff_constant_witness :
  0 <= xrange (0, 2) /\
  (xrange (0, 2) = 0 <-> forall x y, In x [0; 2; 1; 1] -> In y [0; 2; 1; 1] -> x = y).
Proof.
  apply (@range_zero_iff_constant [0; 2; 1; 1] (0, 2)). exact square_extent.
Defined.

Lemma shift_centres_highest_point_witness :
  exists (i : nat) (h : Point3 R),
    find_highest_point [mkPoint3 1 2 3] = ok h /\
    nth_error [mkPoint3 1 2 3] i = Some h /\
    nth_error (shift [mkPoint3 1 2 3] (mkPoint3 1 2 0)) i
    = Some (mkPoint3 0 0 (pz h)) /\
    find_highest_point (shift [mkPoint3 1 2 3] (mkPoint3 1 2 0))
    = ok (mkPoint3 0 0 (pz h)) /\
    offset (shift [mkPoint3 1 2 3] (mkPoint3 1 2 0)) = ok (mkPoint3 0 0 0) /\
    shift (shift [mkPoint3 1 2 3] (mkPoint3 1 2 0)) (mkPoint3 0 0 0)
    = shift [mkPoint3 1 2 3] (mkPoint3 1 2 0).
Proof.
  apply (@shift_centres_highest_point [mkPoint3 1 2 3] (mkPoint3 1 2 0)).
  reflexivity.
Defined.

Lemma image_width_ends_witness :
  exists w : Z,
    image_width 1 1001 = ok w /\
    (0 <= w)%Z /\
    (w = 0%Z <-> 1000 * 1 < 1001) /\
    ((ypx <= w)%Z <-> 1001 <= 1).
Proof. apply (@image_width_ends 1 1001); lra. Defined.

Lemma histogram_total_exact_witness :
  exists g : Grid,
    density_grid square_points = ok g /\
    grid_total (counts g) = length square_points.
Proof.
  apply (@histogram_total_exact square_points (0, 2) (0, 2)).
  - exact square_extent.
  - exact square_extent.
  - unfold xrange. simpl. lra.
  - unfold xrange. simpl. lra.
  - exact square_edges_fit.
  - exact square_edges_fit.
Defined.

Lemma grid_has_a_cell_per_point_witness :
  exists (g : Grid) (mx my : nat),
    density_grid square_points = ok g /\
    length (counts g) = my /\
    (forall row, In row (counts g) -> length row = mx) /\
    xrange (0, 2) <= INR mx * point_density (xrange (0, 2)) (xrange (0, 2))
                                            (length square_points) /\
    xrange (0, 2) <= INR my * point_density (xrange (0, 2)) (xrange (0, 2))
                                            (length square_points) /\
    (length square_points <= mx * my)%nat.
Proof.
  apply (@grid_has_a_cell_per_point square_points (0, 2) (0, 2)).
  - exact square_extent.
  - exact square_extent.
  - unfold xrange. simpl. lra.
  - unfold xrange. simpl. lra.
  - exact square_edges_fit.
  - exact square_edges_fit.
Defined.

Lemma heatmap_darkness_bounds_witness :
  exists img : Image R,
    heatmap (mkGrid 1000 [[2; 0]]%nat) = ok img /\
    0 < darkness img 0 1 <= 1.
Proof.
  destruct (@heatmap_returns (mkGrid 1000 [[2; 0]]%nat) 2%nat [0%nat] []
                             eq_refl eq_refl) as [img Himg].
  exists img. split; [exact Himg|].
  apply (@heatmap_darkness_bounds (mkGrid 1000 [[2; 0]]%nat)).
  exact Himg.
Defined.

End MoreExactRuns.

(** ** The views along the axes, in exact arithmetic *)

Section AxisViews.

Local Open Scope R_scope.
Local Open Scope string_scope.

Lemma projection_at_0 (points : list (Point3 R)) :
  projection_at points 0 = map (fun p => (px p, pz p)) points.
Proof.
  unfold projection_at, get_plane, radians, zero, one. simpl.
  rewrite Rmult_0_l, cos_0, sin_0.
  rewrite project_to_plane_map. apply map_ext.
  intros [x y z]. unfold dot. simpl. f_equal; ring.
Qed.

(** X20: The first and the third of the default angles look along the axes:
    at 0 degrees a point (x, y, z) is drawn at (x, z), at 90 degrees at
    (y, z).
    Stated in exact arithmetic. *)
Theorem axis_views (points : list (Point3 R)) :
  projection_at points 0 = map (fun p => (px p, pz p)) points /\
  projection_at points 90 = map (fun p => (py p, pz p)) points.
Proof.
  split; [apply projection_at_0|].
  unfold projection_at, get_plane, radians, zero, one. simpl.
  replace (90 * (PI / 180)) with (PI / 2) by field.
  rewrite cos_PI2, sin_PI2.
  rewrite project_to_plane_map. apply map_ext.
  intros [x y z]. unfold dot. simpl. f_equal; ring.
Qed.

Lemma nondegenerate_pass_saves_image_witness :
  exists (img : Image R) (w' : World R),
    process_angle flat_env "tree1.las" "out" square_cloud 0 empty_world
    = (ok tt, w') /\
    image_at w' (mkImagePath "out" "tree1" 0) = Some img /\
    0 < img_aspect img.
Proof.
  assert (Hp : projection_at square_cloud 0 = square_points).
  { rewrite projection_at_0. reflexivity. }
  destruct (@nondegenerate_pass_saves_image
              flat_env "tree1.las" "out" square_cloud 0%Z empty_world
              (0, 2) (0, 2)) as [Hwide _].
  - rewrite Hp. exact square_extent.
  - rewrite Hp. exact square_extent.
  - unfold xrange. simpl. lra.
  - unfold xrange. simpl. lra.
  - rewrite Hp. exact square_edges_fit.
  - rewrite Hp. exact square_edges_fit.
  - destruct Hwide as (img & w' & Hrun & Hat & _ & _ & _ & _ & Hpos).
    + unfold xrange. simpl. lra.
    + reflexivity.
    + exists img, w'. split; [exact Hrun|]. split; [exact Hat | exact Hpos].
Defined.

End AxisViews.
